(** * P-CHANGE: password rules, password generator and breach checker

    A shallow embedding of [password_generator.py] and [password_checker.py]
    together with the properties of the rule validator
    ([PasswordRules.check_rules_consistency]), of the generator
    ([PasswordGenerator.generate]) and of the breach lookup
    ([PasswordChecker.check]). *)

From Stdlib Require Import ZArith NArith List String Ascii Bool Lia DecimalString.
Import ListNotations.

Local Open Scope Z_scope.

(** ** Python values used by both modules *)

Module Py.

(** A Python [str] is a sequence of Unicode code points. *)
Definition char := N.
Definition str := list char.

(** String literals of the source, written as Rocq strings. *)
Definition lit (s : string) : str := map N_of_ascii (list_ascii_of_string s).

(** [len(s)], a Python int. *)
Definition len (s : str) : Z := Z.of_nat (List.length s).

(** [s == t] on strings. *)
Fixpoint str_eqb (s t : str) : bool :=
  match s, t with
  | [], [] => true
  | c :: s', d :: t' => N.eqb c d && str_eqb s' t'
  | _, _ => false
  end.

(** [c in seq]. *)
Definition mem (c : char) (seq : list char) : bool := existsb (N.eqb c) seq.

(** The character predicates of [str]: [islower], [isupper], [isdigit] and
    [isalpha] are defined by the Unicode character database.  The
    development is parametric in that table. *)
Record unicode : Type := {
  islower : char -> bool;
  isupper : char -> bool;
  isdigit : char -> bool;
  isalpha : char -> bool
}.

Definition between (lo hi c : N) : bool := (N.leb lo c) && (N.leb c hi).

(** The table restricted to ASCII: nothing above U+007F is classified. *)
Definition ascii_table : unicode := {|
  islower := between 97 122;
  isupper := between 65 90;
  isdigit := between 48 57;
  isalpha := fun c => between 97 122 c || between 65 90 c
|}.

(** What is used of the Unicode database: its values on ASCII. *)
Definition agrees_on_ascii (U : unicode) : Prop :=
  forall c : char, (c < 128)%N ->
    islower U c = islower ascii_table c /\
    isupper U c = isupper ascii_table c /\
    isdigit U c = isdigit ascii_table c /\
    isalpha U c = isalpha ascii_table c.

(** Strings of ASCII characters. *)
Definition ascii_str (s : str) : Prop := Forall (fun c => (c < 128)%N) s.

(** [string.ascii_lowercase], [string.ascii_uppercase], [string.digits]. *)
Definition ascii_lowercase : str := lit "abcdefghijklmnopqrstuvwxyz".
Definition ascii_uppercase : str := lit "ABCDEFGHIJKLMNOPQRSTUVWXYZ".
Definition digits : str := lit "0123456789".

(** [str(n)] for an int. *)
Definition str_of_int (n : Z) : str := lit (NilZero.string_of_int (Z.to_int n)).

End Py.

Import Py.

(** ** password_generator.py *)

Module Generator.

(** [class PasswordRules].  The two cached lengths
    [_length_of_customized_beginning] and [_length_of_customized_end] are
    written by the setters and by [set_customized_strings] only, always as
    [len] of the string stored with them: they are derived here.
    [allowed_special_characters] is the list of single characters the
    caller builds ([[char for char in text]]). *)
Record PasswordRules : Type := {
  min_number_of_chars : Z;
  max_number_of_chars : Z;
  allowed_special_characters : list char;
  is_lower_case_required : bool;
  is_upper_case_required : bool;
  is_number_required : bool;
  is_special_character_required : bool;
  customized_beginning : str;
  customized_end : str
}.

Definition length_of_customized_beginning (self : PasswordRules) : Z :=
  len (customized_beginning self).

Definition length_of_customized_end (self : PasswordRules) : Z :=
  len (customized_end self).

(** [PasswordRules.__init__]. *)
Definition default_rules : PasswordRules := {|
  min_number_of_chars := 1;
  max_number_of_chars := 1;
  allowed_special_characters := [];
  is_lower_case_required := false;
  is_upper_case_required := false;
  is_number_required := false;
  is_special_character_required := false;
  customized_beginning := [];
  customized_end := []
|}.

(** The reasons returned by [check_rules_consistency]. *)
Definition reason_no_presence_rule : str :=
  lit "At least one presence rule must be selected".
Definition reason_first_chars_too_long : str :=
  lit "The number of customized first chars cannot be greater than 'max number of chars'".
Definition reason_last_chars_too_long : str :=
  lit "The number of customized last chars cannot be greater than 'max number of chars'".
Definition reason_customized_too_long : str :=
  lit "The total number of customized chars cannot be greater than 'max number of chars'".
Definition reason_first_chars_inconsistent : str :=
  lit "The customized first chars are not consistent with at least one rule".
Definition reason_last_chars_inconsistent : str :=
  lit "The customized last chars are not consistent with at least one rule".
Definition reason_min_greater_than_max : str :=
  lit "'min number of chars' cannot be greater than 'max number of chars'".
Definition reason_presence_min : str :=
  lit "All presence rules cannot be satisfied with current 'min nb of chars'".
Definition reason_presence_max : str :=
  lit "All presence rules cannot be satisfied with current settings ('max_nb_of_chars', customized beginning and customized end)".
Definition reason_no_special_character : str :=
  lit "'special character' rule selected but no special character provided".

Section Rules.

Variable U : unicode.

(** [get_nb_of_presence_rules]: the sum of the four flags. *)
Definition get_nb_of_presence_rules (self : PasswordRules) : Z :=
  Z.b2z (is_lower_case_required self) + Z.b2z (is_upper_case_required self)
  + Z.b2z (is_number_required self) + Z.b2z (is_special_character_required self).

Definition is_lower_case_rule_satisfied (self : PasswordRules) (string_to_check : str) : bool :=
  existsb (islower U) string_to_check.

Definition is_upper_case_rule_satisfied (self : PasswordRules) (string_to_check : str) : bool :=
  existsb (isupper U) string_to_check.

Definition is_number_rule_satisfied (self : PasswordRules) (string_to_check : str) : bool :=
  existsb (isdigit U) string_to_check.

Definition is_special_character_rule_satisfied (self : PasswordRules) (string_to_check : str) : bool :=
  existsb (fun c => mem c (allowed_special_characters self)) string_to_check.

Definition get_nb_of_rules_satisfied_by_string (self : PasswordRules) (string_to_check : str) : Z :=
  Z.b2z (is_lower_case_required self && is_lower_case_rule_satisfied self string_to_check)
  + Z.b2z (is_upper_case_required self && is_upper_case_rule_satisfied self string_to_check)
  + Z.b2z (is_number_required self && is_number_rule_satisfied self string_to_check)
  + Z.b2z (is_special_character_required self
           && is_special_character_rule_satisfied self string_to_check).

(** [__check_string_consistency]: [True] when the string breaks no rule. *)
Definition check_string_consistency (self : PasswordRules) (string_to_check : str) : bool :=
  if negb (is_lower_case_required self) && existsb (islower U) string_to_check then false
  else if negb (is_upper_case_required self) && existsb (isupper U) string_to_check then false
  else if negb (is_number_required self) && existsb (isdigit U) string_to_check then false
  else if negb (is_special_character_required self) then
    if existsb (fun c => negb (isdigit U c) && negb (isalpha U c)) string_to_check
    then false else true
  else if existsb (fun c => negb (mem c (allowed_special_characters self))
                            && negb (isdigit U c) && negb (isalpha U c)) string_to_check
  then false
  else true.

(** [check_rules_consistency]: the pair (consistent?, reason). *)
Definition check_rules_consistency (self : PasswordRules) : bool * str :=
  let nb_of_presence_rules := get_nb_of_presence_rules self in
  if nb_of_presence_rules =? 0 then (false, reason_no_presence_rule)
  else if length_of_customized_beginning self + length_of_customized_end self
          >? max_number_of_chars self then
    if length_of_customized_beginning self >? max_number_of_chars self
    then (false, reason_first_chars_too_long)
    else if length_of_customized_end self >? max_number_of_chars self
    then (false, reason_last_chars_too_long)
    else (false, reason_customized_too_long)
  else if (length_of_customized_beginning self >? 0)
          && negb (check_string_consistency self (customized_beginning self))
  then (false, reason_first_chars_inconsistent)
  else if (length_of_customized_end self >? 0)
          && negb (check_string_consistency self (customized_end self))
  then (false, reason_last_chars_inconsistent)
  else if min_number_of_chars self >? max_number_of_chars self
  then (false, reason_min_greater_than_max)
  else
    (* the last check, reached by every path that falls through *)
    let special_character_check :=
      if is_special_character_required self
         && (match allowed_special_characters self with [] => true | _ => false end)
      then (false, reason_no_special_character)
      else (true, lit "") in
    if nb_of_presence_rules >? min_number_of_chars self then
      if (match customized_beginning self with [] => true | _ => false end)
         && (match customized_end self with [] => true | _ => false end)
      then (false, reason_presence_min)
      else
        let nb_of_satisfied_rules :=
          get_nb_of_rules_satisfied_by_string self
            (customized_beginning self ++ customized_end self) in
        if nb_of_satisfied_rules <? nb_of_presence_rules then
          if max_number_of_chars self
             - len (customized_beginning self ++ customized_end self)
             <? nb_of_presence_rules - nb_of_satisfied_rules
          then (false, reason_presence_max)
          else special_character_check
        else special_character_check
    else special_character_check.

End Rules.

(** *** The [random] module and exceptions

    [generate] draws from the process-wide generator of [random].  A
    randomness source is the sequence of raw draws it will deliver; an
    exhausted sequence keeps delivering 0.  Every outcome of
    [random.choice], [random.randint] and [random.randrange] is reached by
    some raw draw, so quantifying over sources covers every run. *)
Definition randomness := list nat.

Inductive exn : Type :=
| PasswordRuleError (message : str)
| IndexError     (* random.choice of an empty sequence *)
| ValueError.    (* random.randrange of an empty range *)

(** Computations that draw random numbers and may raise. *)
Definition M (A : Type) : Type := randomness -> exn + (A * randomness).

Definition ret {A} (a : A) : M A := fun r => inr (a, r).

Definition raise {A} (e : exn) : M A := fun _ => inl e.

Definition bind {A B} (m : M A) (k : A -> M B) : M B :=
  fun r => match m r with
           | inl e => inl e
           | inr (a, r') => k a r'
           end.

Local Notation "x <- m ;; k" := (bind m (fun x => k))
  (at level 61, m at next level, right associativity).

Definition draw : M nat :=
  fun r => match r with
           | [] => inr (0%nat, [])
           | n :: r' => inr (n, r')
           end.

(** [random.choice(seq)]. *)
Definition random_choice (seq : list char) : M char :=
  match seq with
  | [] => raise IndexError
  | c :: _ => n <- draw ;; ret (nth (n mod List.length seq) seq c)
  end.

(** [random.randrange(start, stop, 1)]. *)
Definition random_randrange (start stop : Z) : M Z :=
  if stop <=? start then raise ValueError
  else n <- draw ;; ret (start + Z.of_nat n mod (stop - start)).

(** [random.randint(a, b)] is [randrange(a, b + 1)]. *)
Definition random_randint (a b : Z) : M Z := random_randrange a (b + 1).

(** *** [class PasswordGenerator] *)

(** One entry of [rules_states]: [[<is it required ?>, <is it satisfied ?>]]. *)
Record rule_state : Type := { required : bool; satisfied : bool }.

(** The dictionary [rules_states], with its four fixed keys. *)
Record rules_states : Type := {
  lower_case : rule_state;
  upper_case : rule_state;
  number : rule_state;
  special_character : rule_state
}.

Definition unsatisfied (s : rule_state) : bool := required s && negb (satisfied s).

Definition mark (s : rule_state) : rule_state :=
  {| required := required s; satisfied := true |}.

(** [for i in range(n): password += random.choice(additional_chars)]. *)
Fixpoint append_random_chars (n : nat) (additional_chars : list char) (password : str)
  : M str :=
  match n with
  | O => ret password
  | S n' => c <- random_choice additional_chars ;;
            append_random_chars n' additional_chars (password ++ [c])
  end.

Section Generate.

Variable U : unicode.

(** The loop "Satisfy each remaining unsatisfied rule". *)
Fixpoint satisfy_rules (n : nat) (self : PasswordRules)
         (states : rules_states) (password : str) : M (rules_states * str) :=
  match n with
  | O => ret (states, password)
  | S n' =>
      if unsatisfied (lower_case states) then
        c <- random_choice ascii_lowercase ;;
        satisfy_rules n' self
          {| lower_case := mark (lower_case states); upper_case := upper_case states;
             number := number states; special_character := special_character states |}
          (password ++ [c])
      else if unsatisfied (upper_case states) then
        c <- random_choice ascii_uppercase ;;
        satisfy_rules n' self
          {| lower_case := lower_case states; upper_case := mark (upper_case states);
             number := number states; special_character := special_character states |}
          (password ++ [c])
      else if unsatisfied (number states) then
        d <- random_randint 0 9 ;;
        satisfy_rules n' self
          {| lower_case := lower_case states; upper_case := upper_case states;
             number := mark (number states); special_character := special_character states |}
          (password ++ str_of_int d)
      else if unsatisfied (special_character states) then
        c <- random_choice (allowed_special_characters self) ;;
        satisfy_rules n' self
          {| lower_case := lower_case states; upper_case := upper_case states;
             number := number states; special_character := mark (special_character states) |}
          (password ++ [c])
      else ret (states, password)   (* break *)
  end.

(** The list [additional_chars] of [generate]. *)
Definition additional_chars (self : PasswordRules) : list char :=
  (if is_lower_case_required self then ascii_lowercase else [])
  ++ (if is_upper_case_required self then ascii_uppercase else [])
  ++ (if is_number_required self then digits else [])
  ++ (if is_special_character_required self then allowed_special_characters self else []).

(** [rules_states] after the customized strings have been taken into
    account, with the number of rules still to satisfy. *)
Definition initial_states (self : PasswordRules) : rules_states * Z :=
  let rules_states0 := {|
    lower_case := {| required := is_lower_case_required self; satisfied := false |};
    upper_case := {| required := is_upper_case_required self; satisfied := false |};
    number := {| required := is_number_required self; satisfied := false |};
    special_character :=
      {| required := is_special_character_required self; satisfied := false |}
  |} in
  if (length_of_customized_beginning self >? 0) || (length_of_customized_end self >? 0) then
    let customized_string := customized_beginning self ++ customized_end self in
    let nb_of_satisfied_rules := get_nb_of_rules_satisfied_by_string U self customized_string in
    let nb_of_unsatisfied_rules := get_nb_of_presence_rules self - nb_of_satisfied_rules in
    if nb_of_satisfied_rules >? 0 then
      ({| lower_case :=
            if is_lower_case_required self
            then {| required := true;
                    satisfied := is_lower_case_rule_satisfied U self customized_string |}
            else lower_case rules_states0;
          upper_case :=
            if is_upper_case_required self
            then {| required := true;
                    satisfied := is_upper_case_rule_satisfied U self customized_string |}
            else upper_case rules_states0;
          number :=
            if is_number_required self
            then {| required := true;
                    satisfied := is_number_rule_satisfied U self customized_string |}
            else number rules_states0;
          special_character :=
            if is_special_character_required self
            then {| required := true;
                    satisfied := is_special_character_rule_satisfied self customized_string |}
            else special_character rules_states0 |},
       nb_of_unsatisfied_rules)
    else (rules_states0, nb_of_unsatisfied_rules)
  else (rules_states0, get_nb_of_presence_rules self).

(** [PasswordGenerator.generate], for the rules held in [self._rules]. *)
Definition generate (rules : PasswordRules) : M str :=
  let '(are_rules_consistent, inconsistency_reason) := check_rules_consistency U rules in
  if negb are_rules_consistent then raise (PasswordRuleError inconsistency_reason)
  else
    let '(states, nb_of_unsatisfied_rules) := initial_states rules in
    sp <- satisfy_rules (Z.to_nat nb_of_unsatisfied_rules) rules states
            (customized_beginning rules) ;;
    let password := snd sp in
    let nb_of_chars_left :=
      max_number_of_chars rules - len password - length_of_customized_end rules in
    password <- (if nb_of_chars_left >? 0 then
                   k <- random_randrange 1 (nb_of_chars_left + 1) ;;
                   append_random_chars (Z.to_nat k) (additional_chars rules) password
                 else ret password) ;;
    password <- (if len password + length_of_customized_end rules
                    <? min_number_of_chars rules then
                   append_random_chars
                     (Z.to_nat (min_number_of_chars rules
                                - (len password + length_of_customized_end rules)))
                     (additional_chars rules) password
                 else ret password) ;;
    ret (if length_of_customized_end rules >? 0
         then password ++ customized_end rules
         else password).

End Generate.

(** *** Vocabulary of the properties *)

(** The four character classes of the presence rules. *)
Inductive char_class : Type := Lower | Upper | Digit | Special.

Definition class_required (rules : PasswordRules) (k : char_class) : bool :=
  match k with
  | Lower => is_lower_case_required rules
  | Upper => is_upper_case_required rules
  | Digit => is_number_required rules
  | Special => is_special_character_required rules
  end.

(** The characters [generate] draws from for a class. *)
Definition alphabet (rules : PasswordRules) (k : char_class) : list char :=
  match k with
  | Lower => ascii_lowercase
  | Upper => ascii_uppercase
  | Digit => digits
  | Special => allowed_special_characters rules
  end.

(** The test a character passes to count for a class, as in
    [is_lower_case_rule_satisfied] and its three siblings. *)
Definition class_matches (U : unicode) (rules : PasswordRules) (k : char_class) (c : char)
  : bool :=
  match k with
  | Lower => islower U c
  | Upper => isupper U c
  | Digit => isdigit U c
  | Special => mem c (allowed_special_characters rules)
  end.

Definition rule_satisfied (U : unicode) (rules : PasswordRules) (k : char_class) (s : str)
  : bool :=
  match k with
  | Lower => is_lower_case_rule_satisfied U rules s
  | Upper => is_upper_case_rule_satisfied U rules s
  | Digit => is_number_rule_satisfied U rules s
  | Special => is_special_character_rule_satisfied rules s
  end.

(** The entry of [rules_states] for a class. *)
Definition state_of (states : rules_states) (k : char_class) : rule_state :=
  match k with
  | Lower => lower_case states
  | Upper => upper_case states
  | Digit => number states
  | Special => special_character states
  end.

Definition pending (states : rules_states) (k : char_class) : bool :=
  unsatisfied (state_of states k).

Definition count_pending (states : rules_states) : nat :=
  (Nat.b2n (pending states Lower) + Nat.b2n (pending states Upper)
   + Nat.b2n (pending states Digit) + Nat.b2n (pending states Special))%nat.

(** What a rule set that passes [check_rules_consistency] satisfies: one
    field per check, in the order of the checks. *)
Record passes_checks (U : unicode) (rules : PasswordRules) : Prop := {
  some_rule : get_nb_of_presence_rules rules <> 0;
  customized_fit :
    length_of_customized_beginning rules + length_of_customized_end rules
    <= max_number_of_chars rules;
  beginning_ok :
    customized_beginning rules = []
    \/ check_string_consistency U rules (customized_beginning rules) = true;
  end_ok :
    customized_end rules = []
    \/ check_string_consistency U rules (customized_end rules) = true;
  min_le_max : min_number_of_chars rules <= max_number_of_chars rules;
  presence_fit :
    get_nb_of_presence_rules rules > min_number_of_chars rules ->
    (customized_beginning rules <> [] \/ customized_end rules <> [])
    /\ get_nb_of_presence_rules rules
       - get_nb_of_rules_satisfied_by_string U rules
           (customized_beginning rules ++ customized_end rules)
       <= max_number_of_chars rules
          - len (customized_beginning rules ++ customized_end rules);
  special_ok :
    is_special_character_required rules = true -> allowed_special_characters rules <> []
}.

(** No character of the part of [password] between the customized
    beginning and the customized end belongs to a class that is not
    required. *)
Definition only_required_classes (U : unicode) (rules : PasswordRules) (password : str)
  : Prop :=
  forall generated : str,
    password = customized_beginning rules ++ generated ++ customized_end rules ->
    forall (c : char) (k : char_class),
      In c generated -> class_required rules k = false -> class_matches U rules k c = false.

(** The first four checks pass: a presence rule is selected, the
    customized strings fit in max and each non-empty one breaks no rule. *)
Definition customized_strings_accepted (U : unicode) (rules : PasswordRules) : Prop :=
  get_nb_of_presence_rules rules <> 0
  /\ length_of_customized_beginning rules + length_of_customized_end rules
     <= max_number_of_chars rules
  /\ (customized_beginning rules = []
      \/ check_string_consistency U rules (customized_beginning rules) = true)
  /\ (customized_end rules = []
      \/ check_string_consistency U rules (customized_end rules) = true).

(** The decision table of [check_rules_consistency]: the check that
    fails first, with the reason it gives. *)
Inductive failed_check (U : unicode) (rules : PasswordRules) : str -> Prop :=
| fails_no_presence_rule :
    get_nb_of_presence_rules rules = 0 ->
    failed_check U rules reason_no_presence_rule
| fails_first_chars_too_long :
    get_nb_of_presence_rules rules <> 0 ->
    length_of_customized_beginning rules > max_number_of_chars rules ->
    failed_check U rules reason_first_chars_too_long
| fails_last_chars_too_long :
    get_nb_of_presence_rules rules <> 0 ->
    length_of_customized_beginning rules <= max_number_of_chars rules ->
    length_of_customized_end rules > max_number_of_chars rules ->
    failed_check U rules reason_last_chars_too_long
| fails_customized_too_long :
    get_nb_of_presence_rules rules <> 0 ->
    length_of_customized_beginning rules <= max_number_of_chars rules ->
    length_of_customized_end rules <= max_number_of_chars rules ->
    length_of_customized_beginning rules + length_of_customized_end rules
    > max_number_of_chars rules ->
    failed_check U rules reason_customized_too_long
| fails_first_chars_inconsistent :
    get_nb_of_presence_rules rules <> 0 ->
    length_of_customized_beginning rules + length_of_customized_end rules
    <= max_number_of_chars rules ->
    customized_beginning rules <> [] ->
    check_string_consistency U rules (customized_beginning rules) = false ->
    failed_check U rules reason_first_chars_inconsistent
| fails_last_chars_inconsistent :
    get_nb_of_presence_rules rules <> 0 ->
    length_of_customized_beginning rules + length_of_customized_end rules
    <= max_number_of_chars rules ->
    (customized_beginning rules = []
     \/ check_string_consistency U rules (customized_beginning rules) = true) ->
    customized_end rules <> [] ->
    check_string_consistency U rules (customized_end rules) = false ->
    failed_check U rules reason_last_chars_inconsistent
| fails_min_greater_than_max :
    customized_strings_accepted U rules ->
    min_number_of_chars rules > max_number_of_chars rules ->
    failed_check U rules reason_min_greater_than_max
| fails_presence_min :
    customized_strings_accepted U rules ->
    min_number_of_chars rules <= max_number_of_chars rules ->
    get_nb_of_presence_rules rules > min_number_of_chars rules ->
    customized_beginning rules = [] -> customized_end rules = [] ->
    failed_check U rules reason_presence_min
| fails_presence_max :
    customized_strings_accepted U rules ->
    min_number_of_chars rules <= max_number_of_chars rules ->
    get_nb_of_presence_rules rules > min_number_of_chars rules ->
    (customized_beginning rules <> [] \/ customized_end rules <> []) ->
    get_nb_of_presence_rules rules
    - get_nb_of_rules_satisfied_by_string U rules
        (customized_beginning rules ++ customized_end rules)
    > max_number_of_chars rules - len (customized_beginning rules ++ customized_end rules) ->
    failed_check U rules reason_presence_max
| fails_no_special_character :
    customized_strings_accepted U rules ->
    min_number_of_chars rules <= max_number_of_chars rules ->
    (get_nb_of_presence_rules rules > min_number_of_chars rules ->
     (customized_beginning rules <> [] \/ customized_end rules <> [])
     /\ get_nb_of_presence_rules rules
        - get_nb_of_rules_satisfied_by_string U rules
            (customized_beginning rules ++ customized_end rules)
        <= max_number_of_chars rules
           - len (customized_beginning rules ++ customized_end rules)) ->
    is_special_character_required rules = true ->
    allowed_special_characters rules = [] ->
    failed_check U rules reason_no_special_character.

(** Running a computation on a source: the value returned or the exception
    raised. *)
Definition run {A} (m : M A) (r : randomness) : exn + A :=
  match m r with
  | inl e => inl e
  | inr (a, _) => inr a
  end.

End Generator.

(** ** password_checker.py *)

Module Checker.

(** *** [str.encode("utf-8")]

    Bytes are integers in [0, 255].  A lone surrogate has no UTF-8
    encoding: [encode] raises [UnicodeEncodeError]. *)
Definition encode_utf8_char (c : char) : option (list Z) :=
  let z := Z.of_N c in
  if z <? 0x80 then Some [z]
  else if z <? 0x800 then
    Some [Z.lor 0xC0 (Z.shiftr z 6); Z.lor 0x80 (Z.land z 0x3F)]
  else if z <? 0x10000 then
    if (0xD800 <=? z) && (z <=? 0xDFFF) then None
    else Some [Z.lor 0xE0 (Z.shiftr z 12);
               Z.lor 0x80 (Z.land (Z.shiftr z 6) 0x3F);
               Z.lor 0x80 (Z.land z 0x3F)]
  else if z <? 0x110000 then
    Some [Z.lor 0xF0 (Z.shiftr z 18);
          Z.lor 0x80 (Z.land (Z.shiftr z 12) 0x3F);
          Z.lor 0x80 (Z.land (Z.shiftr z 6) 0x3F);
          Z.lor 0x80 (Z.land z 0x3F)]
  else None.

Fixpoint encode_utf8 (s : str) : option (list Z) :=
  match s with
  | [] => Some []
  | c :: s' =>
      match encode_utf8_char c, encode_utf8 s' with
      | Some b, Some bs => Some (b ++ bs)
      | _, _ => None
      end
  end.

(** *** [hashlib.sha1] (FIPS 180-4), on 32-bit words held in [Z] *)
Definition wrap32 (x : Z) : Z := Z.land x 0xFFFFFFFF.
Definition add32 (x y : Z) : Z := wrap32 (x + y).
Definition rotl (n x : Z) : Z := wrap32 (Z.lor (Z.shiftl x n) (Z.shiftr x (32 - n))).
Definition not32 (x : Z) : Z := Z.lxor x 0xFFFFFFFF.

(** The message followed by the bit 1, zeros, and its length in bits on
    64 bits, a multiple of 64 bytes in all. *)
Definition sha1_pad (message : list Z) : list Z :=
  let l := List.length message in
  let zeros := ((64 - (l + 9) mod 64) mod 64)%nat in
  let bits := 8 * Z.of_nat l in
  message ++ [0x80] ++ repeat 0 zeros
  ++ map (fun i => Z.land (Z.shiftr bits (8 * i)) 0xFF) [7; 6; 5; 4; 3; 2; 1; 0].

(** Big-endian 32-bit words. *)
Fixpoint be_words (bs : list Z) : list Z :=
  match bs with
  | b0 :: b1 :: b2 :: b3 :: rest =>
      Z.lor (Z.shiftl b0 24) (Z.lor (Z.shiftl b1 16) (Z.lor (Z.shiftl b2 8) b3))
      :: be_words rest
  | _ => []
  end.

(** The message schedule, most recent word first: [n] more words after
    the ones in [ws]. *)
Fixpoint sha1_schedule (n : nat) (ws : list Z) : list Z :=
  match n with
  | O => ws
  | S n' =>
      let w := rotl 1 (Z.lxor (Z.lxor (nth 2 ws 0) (nth 7 ws 0))
                              (Z.lxor (nth 13 ws 0) (nth 15 ws 0))) in
      sha1_schedule n' (w :: ws)
  end.

Definition sha1_state : Type := Z * Z * Z * Z * Z.

Definition sha1_f (t : nat) (b c d : Z) : Z :=
  if (t <? 20)%nat then Z.lor (Z.land b c) (Z.land (not32 b) d)
  else if (t <? 40)%nat then Z.lxor (Z.lxor b c) d
  else if (t <? 60)%nat then Z.lor (Z.lor (Z.land b c) (Z.land b d)) (Z.land c d)
  else Z.lxor (Z.lxor b c) d.

Definition sha1_k (t : nat) : Z :=
  if (t <? 20)%nat then 0x5A827999
  else if (t <? 40)%nat then 0x6ED9EBA1
  else if (t <? 60)%nat then 0x8F1BBCDC
  else 0xCA62C1D6.

Fixpoint sha1_rounds (t : nat) (ws : list Z) (s : sha1_state) : sha1_state :=
  match ws with
  | [] => s
  | w :: ws' =>
      let '(a, b, c, d, e) := s in
      let temp := add32 (add32 (add32 (add32 (rotl 5 a) (sha1_f t b c d)) e) (sha1_k t)) w in
      sha1_rounds (S t) ws' (temp, a, rotl 30 b, c, d)
  end.

Definition sha1_block (h : sha1_state) (block : list Z) : sha1_state :=
  let '(h0, h1, h2, h3, h4) := h in
  let '(a, b, c, d, e) :=
    sha1_rounds 0 (rev (sha1_schedule 64 (rev block))) h in
  (add32 h0 a, add32 h1 b, add32 h2 c, add32 h3 d, add32 h4 e).

Fixpoint sha1_blocks (n : nat) (ws : list Z) (h : sha1_state) : sha1_state :=
  match n with
  | O => h
  | S n' => sha1_blocks n' (skipn 16 ws) (sha1_block h (firstn 16 ws))
  end.

Definition sha1 (message : list Z) : sha1_state :=
  let ws := be_words (sha1_pad message) in
  sha1_blocks (List.length ws / 16) ws
    (0x67452301, 0xEFCDAB89, 0x98BADCFE, 0x10325476, 0xC3D2E1F0).

(** [hexdigest()]: 40 lowercase hexadecimal digits. *)
Definition hex_digit (x : Z) : char :=
  let d := Z.land x 0xF in
  Z.to_N (if d <? 10 then 48 + d else 87 + d).

Definition hex_word (w : Z) : str :=
  map (fun i => hex_digit (Z.shiftr w (4 * i))) [7; 6; 5; 4; 3; 2; 1; 0].

Definition hexdigest (h : sha1_state) : str :=
  let '(h0, h1, h2, h3, h4) := h in
  hex_word h0 ++ hex_word h1 ++ hex_word h2 ++ hex_word h3 ++ hex_word h4.

(** [str.upper()], as it acts on ASCII text (a hex digest). *)
Definition upper (s : str) : str :=
  map (fun c => if between 97 122 c then (c - 32)%N else c) s.

(** *** Splitting the response *)

(** The line boundaries of [str.splitlines()]. *)
Definition is_line_boundary (c : char) : bool :=
  existsb (N.eqb c) [10; 11; 12; 13; 28; 29; 30; 133; 8232; 8233]%N.

(** [after_cr]: the previous character was a carriage return, so that a
    line feed here belongs to the same boundary. *)
Fixpoint splitlines_from (after_cr : bool) (line : str) (s : str) : list str :=
  match s with
  | [] => match line with [] => [] | _ => [line] end
  | c :: s' =>
      if after_cr && N.eqb c 10 then splitlines_from false [] s'
      else if is_line_boundary c then line :: splitlines_from (N.eqb c 13) [] s'
      else splitlines_from false (line ++ [c]) s'
  end.

Definition splitlines (s : str) : list str := splitlines_from false [] s.

(** [s.split(sep)] for a one-character separator. *)
Fixpoint split_from (sep : char) (field : str) (s : str) : list str :=
  match s with
  | [] => [field]
  | c :: s' =>
      if N.eqb c sep then field :: split_from sep [] s'
      else split_from sep (field ++ [c]) s'
  end.

Definition split (sep : char) (s : str) : list str := split_from sep [] s.

Definition colon : char := 58%N.

(** *** The network and exceptions *)

(** [requests.models.Response], as far as it is read. *)
Record Response : Type := { status_code : Z; text : str }.

Inductive exn : Type :=
| RuntimeError (message : str)
| ConnectionError        (* requests.get got no response *)
| UnicodeEncodeError     (* the password has no UTF-8 encoding *)
| ValueError.            (* a record does not unpack into (tail, count) *)

(** The remote service: its answer to a GET of a URL, given the URLs
    requested before; [None] when no response arrives. *)
Definition remote := list str -> str -> option Response.

(** Computations that send requests: they extend the log of the URLs
    requested so far, also when they raise. *)
Definition Net (A : Type) : Type := list str -> (exn + A) * list str.

Definition ret {A} (a : A) : Net A := fun log => (inr a, log).

Definition raise {A} (e : exn) : Net A := fun log => (inl e, log).

Definition bind {A B} (m : Net A) (k : A -> Net B) : Net B :=
  fun log => match m log with
             | (inl e, log') => (inl e, log')
             | (inr a, log') => k a log'
             end.

Local Notation "x <- m ;; k" := (bind m (fun x => k))
  (at level 61, m at next level, right associativity).

(** [try: x = m  except RuntimeError as e: handler(e)  else: k(x)]: only
    what [m] raises is caught. *)
Definition try_except_RuntimeError_else {A B}
           (m : Net A) (handler : str -> Net B) (k : A -> Net B) : Net B :=
  fun log => match m log with
             | (inl (RuntimeError e), log') => handler e log'
             | (inl other, log') => (inl other, log')
             | (inr a, log') => k a log'
             end.

(** A value bound to [count]: the int 0 or a field of the response. *)
Inductive value : Type :=
| Int (n : Z)
| Str (s : str).

(** Truth value of [count] in [if count:]. *)
Definition truthy (v : value) : bool :=
  match v with
  | Int n => negb (n =? 0)
  | Str [] => false
  | Str (_ :: _) => true
  end.

(** [{count}] in an f-string. *)
Definition format (v : value) : str :=
  match v with
  | Int n => str_of_int n
  | Str s => s
  end.

(** [class PasswordChecker]. *)
Record PasswordChecker : Type := {
  password : str;
  has_to_be_hidden : bool
}.

Definition api_range_url : str := lit "https://api.pwnedpasswords.com/range/".

Section Remote.

Variable server : remote.

(** [requests.get(url)]. *)
Definition requests_get (url : str) : Net Response :=
  fun log => match server log url with
             | Some response => (inr response, log ++ [url])
             | None => (inl ConnectionError, log ++ [url])
             end.

(** [__request_api_data]. *)
Definition request_api_data (url : str) : Net Response :=
  response <- requests_get url ;;
  if negb (status_code response =? 200) then
    raise (RuntimeError (lit "Error fetching : response status code = "
                         ++ str_of_int (status_code response)
                         ++ lit ", check the API and try again"))
  else ret response.

(** The loop of [__get_pwd_leaks_count] over the records. *)
Fixpoint scan_hashes (hashes : list (list str)) (hashed_pwd_tail : str) : Net value :=
  match hashes with
  | [] => ret (Int 0)
  | [tail; count] :: rest =>
      if str_eqb tail hashed_pwd_tail then ret (Str count)
      else scan_hashes rest hashed_pwd_tail
  | _ :: _ => raise ValueError
  end.

(** [__get_pwd_leaks_count]. *)
Definition get_pwd_leaks_count (hashes : Response) (hashed_pwd_tail : str) : Net value :=
  scan_hashes (map (split colon) (splitlines (text hashes))) hashed_pwd_tail.

(** [__pwned_api_check]. *)
Definition pwned_api_check (password : str) : Net value :=
  match encode_utf8 password with
  | None => raise UnicodeEncodeError
  | Some bytes =>
      let sha1_pwd := upper (hexdigest (sha1 bytes)) in
      let first_5_chars := firstn 5 sha1_pwd in
      let tail := skipn 5 sha1_pwd in
      let url := api_range_url ++ first_5_chars in
      try_except_RuntimeError_else
        (request_api_data url)
        (fun e => ret (Str (lit "Failed to get the information (" ++ e ++ lit ")")))
        (fun response => get_pwd_leaks_count response tail)
  end.

(** [check]. *)
Definition check (self : PasswordChecker) : Net str :=
  match password self with
  | _ :: _ =>
      count <- pwned_api_check (password self) ;;
      let password_string :=
        if negb (has_to_be_hidden self) then password self else lit "This password" in
      if truthy count then
        ret (password_string ++ lit " has already been exposed in data breaches ("
             ++ format count ++ lit " times) : you should probably change it !!")
      else
        ret (password_string
             ++ lit " has never been exposed in data breaches : you can keep it :-)")
  | [] => ret (lit "Empty password provided. No reason to check it !")
  end.

End Remote.

(** *** [PasswordChecker.__str__] *)

(** [re.sub('.', '*', s)]: without the DOTALL flag the dot matches every
    character except the line feed. *)
Definition re_sub_dot_star (s : str) : str :=
  map (fun c => if N.eqb c 10 then c else 42%N) s.

(** [{flag}] in an f-string, for a bool. *)
Definition str_of_bool (b : bool) : str := if b then lit "True" else lit "False".

(** [__str__]; [''.join] of a string is that string. *)
Definition PasswordChecker_str (self : PasswordChecker) : str :=
  let pwd := if has_to_be_hidden self then re_sub_dot_star (password self)
             else password self in
  lit "password = " ++ pwd ++ [10%N] ++ lit "has_to_be_hidden = "
  ++ str_of_bool (has_to_be_hidden self).

(** The sentence [check] returns for a count. *)
Definition check_result (self : PasswordChecker) (count : value) : str :=
  let password_string :=
    if negb (has_to_be_hidden self) then password self else lit "This password" in
  if truthy count then
    password_string ++ lit " has already been exposed in data breaches ("
    ++ format count ++ lit " times) : you should probably change it !!"
  else
    password_string ++ lit " has never been exposed in data breaches : you can keep it :-)".

(** A code point without a UTF-8 encoding: a surrogate, or a number that
    is not a code point. *)
Definition not_encodable (c : char) : Prop :=
  (0xD800 <= Z.of_N c <= 0xDFFF) \/ 0x110000 <= Z.of_N c.

(** *** Vocabulary of the properties *)

Definition hex_upper_digits : str := lit "0123456789ABCDEF".

(** [needle] is a substring of [haystack]. *)
Definition occurs_in (needle haystack : str) : Prop :=
  exists before after, haystack = before ++ needle ++ after.

(** Two hexadecimal strings that differ at most by the case of their
    letters. *)
Definition same_hex_ignoring_case (s t : str) : Prop := upper s = upper t.

(** A record of the response that reads TAIL:COUNT. *)
Definition is_record (fields : list str) : Prop :=
  exists tail count, fields = [tail; count].

End Checker.

(** ** Rule sets and responses used as examples *)

Module Scenarios.

Import Generator Checker.

(** max = 3, customized beginning "AB1", lower case, upper case and number
    required; everything else as [__init__] leaves it. *)
Definition full_prefix_rules : PasswordRules := {|
  min_number_of_chars := 1;
  max_number_of_chars := 3;
  allowed_special_characters := [];
  is_lower_case_required := true;
  is_upper_case_required := true;
  is_number_required := true;
  is_special_character_required := false;
  customized_beginning := lit "AB1";
  customized_end := []
|}.

(** The same without the lower case rule. *)
Definition full_prefix_rules_upper_number : PasswordRules := {|
  min_number_of_chars := 1;
  max_number_of_chars := 3;
  allowed_special_characters := [];
  is_lower_case_required := false;
  is_upper_case_required := true;
  is_number_required := true;
  is_special_character_required := false;
  customized_beginning := lit "AB1";
  customized_end := []
|}.

(** max = 2, customized beginning "AB1", no presence rule selected. *)
Definition long_prefix_rules : PasswordRules := {|
  min_number_of_chars := 1;
  max_number_of_chars := 2;
  allowed_special_characters := [];
  is_lower_case_required := false;
  is_upper_case_required := false;
  is_number_required := false;
  is_special_character_required := false;
  customized_beginning := lit "AB1";
  customized_end := []
|}.

(** min = max = 8, customized beginning "password", lower case and number
    required. *)
Definition password8_rules : PasswordRules := {|
  min_number_of_chars := 8;
  max_number_of_chars := 8;
  allowed_special_characters := [];
  is_lower_case_required := true;
  is_upper_case_required := false;
  is_number_required := true;
  is_special_character_required := false;
  customized_beginning := lit "password";
  customized_end := []
|}.

(** Only the special character rule, with "a" as the allowed special
    character. *)
Definition special_a_rules : PasswordRules := {|
  min_number_of_chars := 1;
  max_number_of_chars := 1;
  allowed_special_characters := lit "a";
  is_lower_case_required := false;
  is_upper_case_required := false;
  is_number_required := false;
  is_special_character_required := true;
  customized_beginning := [];
  customized_end := []
|}.

(** max = 1, customized beginning "1", lower case and upper case required
    (number is not). *)
Definition digit_prefix_rules : PasswordRules := {|
  min_number_of_chars := 1;
  max_number_of_chars := 1;
  allowed_special_characters := [];
  is_lower_case_required := true;
  is_upper_case_required := true;
  is_number_required := false;
  is_special_character_required := false;
  customized_beginning := lit "1";
  customized_end := []
|}.

(** min = 8, max = 12, all four rules, "#!" allowed, beginning "x" and
    end "#". *)
Definition mixed_rules : PasswordRules := {|
  min_number_of_chars := 8;
  max_number_of_chars := 12;
  allowed_special_characters := lit "#!";
  is_lower_case_required := true;
  is_upper_case_required := true;
  is_number_required := true;
  is_special_character_required := true;
  customized_beginning := lit "x";
  customized_end := lit "#"
|}.

(** The tail of the SHA-1 digest of "password". *)
Definition password_tail : str := lit "1E4C9B93F3F0682250B6CF8331B7EE68FD8".

Definition line_feed : char := 10%N.

(** A response body with the record of "password" first. *)
Definition canned_body : str :=
  lit "1E4C9B93F3F0682250B6CF8331B7EE68FD8:3533661" ++ [line_feed] ++ lit "AAAAA...:0".

Definition canned_response : Response := {| status_code := 200; text := canned_body |}.

(** The same record with its tail in lower case. *)
Definition lowercase_response : Response :=
  {| status_code := 200; text := lit "1e4c9b93f3f0682250b6cf8331b7ee68fd8:3533661" |}.

(** A service that always answers with the same response. *)
Definition always (response : Response) : remote := fun _ _ => Some response.

Definition server_error : Response := {| status_code := 500; text := [] |}.

Definition checker_of (pwd : string) (hidden : bool) : PasswordChecker :=
  {| password := lit pwd; has_to_be_hidden := hidden |}.

End Scenarios.

(** ** The attributes of [PasswordRules], their setters and a caller *)

Module RulesObject.

(** The values a caller may assign to an attribute or pass to a method
    (floats are left out). *)
Inductive object : Type :=
| PyInt (n : Z)
| PyBool (b : bool)
| PyStr (s : str)
| PyList (items : list object)
| PyNone.

Inductive error : Type :=
| ValueError (message : str)
| TypeError.     (* '>' between a str, a list or None and 0; len() of an int, a bool or None *)

(** The attributes of an instance, cached lengths included.  The sizes
    and the allowed special characters are written by their setters only,
    which check them; a bool assigned to a size (isinstance(True, int)
    holds) is kept as the int it equals.  The four flags and the two
    customized strings are also written, unchecked, by [set_presence_rules]
    and [set_customized_strings]: they hold any value. *)
Record PasswordRules_attributes : Type := {
  _min_number_of_chars : Z;
  _max_number_of_chars : Z;
  _allowed_special_characters : list str;
  _is_lower_case_required : object;
  _is_upper_case_required : object;
  _is_number_required : object;
  _is_special_character_required : object;
  _customized_beginning : object;
  _customized_end : object;
  _length_of_customized_beginning : Z;
  _length_of_customized_end : Z
}.

(** [__init__]. *)
Definition init : PasswordRules_attributes := {|
  _min_number_of_chars := 1;
  _max_number_of_chars := 1;
  _allowed_special_characters := [];
  _is_lower_case_required := PyBool false;
  _is_upper_case_required := PyBool false;
  _is_number_required := PyBool false;
  _is_special_character_required := PyBool false;
  _customized_beginning := PyStr [];
  _customized_end := PyStr [];
  _length_of_customized_beginning := 0;
  _length_of_customized_end := 0
|}.

(** [new_value > 0]. *)
Definition greater_than_zero (new_value : object) : error + bool :=
  match new_value with
  | PyInt n => inr (n >? 0)
  | PyBool b => inr b
  | PyStr _ | PyList _ | PyNone => inl TypeError
  end.

(** [isinstance(new_value, int)]: bool is a subclass of int. *)
Definition isinstance_int (new_value : object) : bool :=
  match new_value with
  | PyInt _ | PyBool _ => true
  | _ => false
  end.

Definition int_of (new_value : object) : Z :=
  match new_value with
  | PyInt n => n
  | PyBool b => Z.b2z b
  | _ => 0
  end.

(** [isinstance(item, str)]. *)
Definition isinstance_str (item : object) : bool :=
  match item with
  | PyStr _ => true
  | _ => false
  end.

Definition str_of (item : object) : str :=
  match item with
  | PyStr s => s
  | _ => []
  end.

(** [len(value)]: defined on a str and on a list. *)
Definition py_len (value : object) : error + Z :=
  match value with
  | PyStr s => inr (len s)
  | PyList items => inr (Z.of_nat (List.length items))
  | PyInt _ | PyBool _ | PyNone => inl TypeError
  end.

(** The setter of [min_number_of_chars]. *)
Definition set_min_number_of_chars (self : PasswordRules_attributes) (new_value : object)
  : error + PasswordRules_attributes :=
  match greater_than_zero new_value with
  | inl e => inl e
  | inr positive =>
      if positive && isinstance_int new_value then
        inr {| _min_number_of_chars := int_of new_value;
               _max_number_of_chars := _max_number_of_chars self;
               _allowed_special_characters := _allowed_special_characters self;
               _is_lower_case_required := _is_lower_case_required self;
               _is_upper_case_required := _is_upper_case_required self;
               _is_number_required := _is_number_required self;
               _is_special_character_required := _is_special_character_required self;
               _customized_beginning := _customized_beginning self;
               _customized_end := _customized_end self;
               _length_of_customized_beginning := _length_of_customized_beginning self;
               _length_of_customized_end := _length_of_customized_end self |}
      else
        inl (ValueError
               (lit "Set a valid integer value > 1 for attribute 'min_number_of_chars'"))
  end.

(** The setter of [max_number_of_chars]. *)
Definition set_max_number_of_chars (self : PasswordRules_attributes) (new_value : object)
  : error + PasswordRules_attributes :=
  match greater_than_zero new_value with
  | inl e => inl e
  | inr positive =>
      if positive && isinstance_int new_value then
        inr {| _min_number_of_chars := _min_number_of_chars self;
               _max_number_of_chars := int_of new_value;
               _allowed_special_characters := _allowed_special_characters self;
               _is_lower_case_required := _is_lower_case_required self;
               _is_upper_case_required := _is_upper_case_required self;
               _is_number_required := _is_number_required self;
               _is_special_character_required := _is_special_character_required self;
               _customized_beginning := _customized_beginning self;
               _customized_end := _customized_end self;
               _length_of_customized_beginning := _length_of_customized_beginning self;
               _length_of_customized_end := _length_of_customized_end self |}
      else
        inl (ValueError
               (lit "Set a valid integer value > 1 for attribute 'max_number_of_chars'"))
  end.

(** The setter of [allowed_special_characters]: a list of str, copied. *)
Definition set_allowed_special_characters (self : PasswordRules_attributes) (new_values : object)
  : error + PasswordRules_attributes :=
  match new_values with
  | PyList items =>
      if forallb isinstance_str items then
        inr {| _min_number_of_chars := _min_number_of_chars self;
               _max_number_of_chars := _max_number_of_chars self;
               _allowed_special_characters := map str_of items;
               _is_lower_case_required := _is_lower_case_required self;
               _is_upper_case_required := _is_upper_case_required self;
               _is_number_required := _is_number_required self;
               _is_special_character_required := _is_special_character_required self;
               _customized_beginning := _customized_beginning self;
               _customized_end := _customized_end self;
               _length_of_customized_beginning := _length_of_customized_beginning self;
               _length_of_customized_end := _length_of_customized_end self |}
      else
        inl (ValueError
               (lit "Set a valid list of str for attribute 'allowed_special_characters'"))
  | _ =>
      inl (ValueError
             (lit "Set a valid list of str for attribute 'allowed_special_characters'"))
  end.

(** [set_presence_rules]: the four values are stored as they come. *)
Definition set_presence_rules (self : PasswordRules_attributes)
           (lower_case upper_case number special_character : object)
  : PasswordRules_attributes :=
  {| _min_number_of_chars := _min_number_of_chars self;
     _max_number_of_chars := _max_number_of_chars self;
     _allowed_special_characters := _allowed_special_characters self;
     _is_lower_case_required := lower_case;
     _is_upper_case_required := upper_case;
     _is_number_required := number;
     _is_special_character_required := special_character;
     _customized_beginning := _customized_beginning self;
     _customized_end := _customized_end self;
     _length_of_customized_beginning := _length_of_customized_beginning self;
     _length_of_customized_end := _length_of_customized_end self |}.

(** The four setters of the presence flags: a bool or [ValueError]. *)
Definition set_is_lower_case_required (self : PasswordRules_attributes) (new_value : object)
  : error + PasswordRules_attributes :=
  match new_value with
  | PyBool b =>
      inr (set_presence_rules self (PyBool b) (_is_upper_case_required self)
             (_is_number_required self) (_is_special_character_required self))
  | _ => inl (ValueError (lit "Set a bool value for attribute 'is_lower_case_required'"))
  end.

Definition set_is_upper_case_required (self : PasswordRules_attributes) (new_value : object)
  : error + PasswordRules_attributes :=
  match new_value with
  | PyBool b =>
      inr (set_presence_rules self (_is_lower_case_required self) (PyBool b)
             (_is_number_required self) (_is_special_character_required self))
  | _ => inl (ValueError (lit "Set a bool value for attribute 'is_upper_case_required'"))
  end.

Definition set_is_number_required (self : PasswordRules_attributes) (new_value : object)
  : error + PasswordRules_attributes :=
  match new_value with
  | PyBool b =>
      inr (set_presence_rules self (_is_lower_case_required self)
             (_is_upper_case_required self) (PyBool b) (_is_special_character_required self))
  | _ => inl (ValueError (lit "Set a bool value for attribute 'is_number_required'"))
  end.

Definition set_is_special_character_required (self : PasswordRules_attributes) (new_value : object)
  : error + PasswordRules_attributes :=
  match new_value with
  | PyBool b =>
      inr (set_presence_rules self (_is_lower_case_required self)
             (_is_upper_case_required self) (_is_number_required self) (PyBool b))
  | _ =>
      inl (ValueError (lit "Set a bool value for attribute 'is_special_character_required'"))
  end.

(** [set_customized_strings]: the two values are stored first, then the
    two lengths are computed and stored one after the other.  When [len]
    raises, the attributes written before it keep their new values: the
    result is the error, if any, with the instance as the call leaves it. *)
Definition set_customized_strings (self : PasswordRules_attributes) (beginning end_ : object)
  : option error * PasswordRules_attributes :=
  let self1 :=
    {| _min_number_of_chars := _min_number_of_chars self;
       _max_number_of_chars := _max_number_of_chars self;
       _allowed_special_characters := _allowed_special_characters self;
       _is_lower_case_required := _is_lower_case_required self;
       _is_upper_case_required := _is_upper_case_required self;
       _is_number_required := _is_number_required self;
       _is_special_character_required := _is_special_character_required self;
       _customized_beginning := beginning;
       _customized_end := end_;
       _length_of_customized_beginning := _length_of_customized_beginning self;
       _length_of_customized_end := _length_of_customized_end self |} in
  match py_len beginning with
  | inl e => (Some e, self1)
  | inr length_of_beginning =>
      let self2 :=
        {| _min_number_of_chars := _min_number_of_chars self1;
           _max_number_of_chars := _max_number_of_chars self1;
           _allowed_special_characters := _allowed_special_characters self1;
           _is_lower_case_required := _is_lower_case_required self1;
           _is_upper_case_required := _is_upper_case_required self1;
           _is_number_required := _is_number_required self1;
           _is_special_character_required := _is_special_character_required self1;
           _customized_beginning := _customized_beginning self1;
           _customized_end := _customized_end self1;
           _length_of_customized_beginning := length_of_beginning;
           _length_of_customized_end := _length_of_customized_end self1 |} in
      match py_len end_ with
      | inl e => (Some e, self2)
      | inr length_of_end =>
          (None,
           {| _min_number_of_chars := _min_number_of_chars self2;
              _max_number_of_chars := _max_number_of_chars self2;
              _allowed_special_characters := _allowed_special_characters self2;
              _is_lower_case_required := _is_lower_case_required self2;
              _is_upper_case_required := _is_upper_case_required self2;
              _is_number_required := _is_number_required self2;
              _is_special_character_required := _is_special_character_required self2;
              _customized_beginning := _customized_beginning self2;
              _customized_end := _customized_end self2;
              _length_of_customized_beginning := _length_of_customized_beginning self2;
              _length_of_customized_end := length_of_end |})
      end
  end.

(** The setters of [customized_beginning] and [customized_end]: a str,
    stored with its length. *)
Definition set_customized_beginning (self : PasswordRules_attributes) (new_value : object)
  : error + PasswordRules_attributes :=
  match new_value with
  | PyStr s =>
      inr {| _min_number_of_chars := _min_number_of_chars self;
             _max_number_of_chars := _max_number_of_chars self;
             _allowed_special_characters := _allowed_special_characters self;
             _is_lower_case_required := _is_lower_case_required self;
             _is_upper_case_required := _is_upper_case_required self;
             _is_number_required := _is_number_required self;
             _is_special_character_required := _is_special_character_required self;
             _customized_beginning := PyStr s;
             _customized_end := _customized_end self;
             _length_of_customized_beginning := len s;
             _length_of_customized_end := _length_of_customized_end self |}
  | _ => inl (ValueError (lit "Set a str value for attribute 'customized_beginning'"))
  end.

Definition set_customized_end (self : PasswordRules_attributes) (new_value : object)
  : error + PasswordRules_attributes :=
  match new_value with
  | PyStr s =>
      inr {| _min_number_of_chars := _min_number_of_chars self;
             _max_number_of_chars := _max_number_of_chars self;
             _allowed_special_characters := _allowed_special_characters self;
             _is_lower_case_required := _is_lower_case_required self;
             _is_upper_case_required := _is_upper_case_required self;
             _is_number_required := _is_number_required self;
             _is_special_character_required := _is_special_character_required self;
             _customized_beginning := _customized_beginning self;
             _customized_end := PyStr s;
             _length_of_customized_beginning := _length_of_customized_beginning self;
             _length_of_customized_end := len s |}
  | _ => inl (ValueError (lit "Set a str value for attribute 'customized_end'"))
  end.

(** What a caller can do to an instance: assign to a property or call one
    of the two public methods that write attributes. *)
Inductive call : Type :=
| assign_min_number_of_chars (new_value : object)
| assign_max_number_of_chars (new_value : object)
| assign_allowed_special_characters (new_values : object)
| assign_is_lower_case_required (new_value : object)
| assign_is_upper_case_required (new_value : object)
| assign_is_number_required (new_value : object)
| assign_is_special_character_required (new_value : object)
| assign_customized_beginning (new_value : object)
| assign_customized_end (new_value : object)
| call_set_presence_rules (lower_case upper_case number special_character : object)
| call_set_customized_strings (beginning end_ : object).

(** A setter raises before it writes: the instance is then unchanged. *)
Definition assigned (self : PasswordRules_attributes)
           (result : error + PasswordRules_attributes)
  : option error * PasswordRules_attributes :=
  match result with
  | inl e => (Some e, self)
  | inr self' => (None, self')
  end.

(** The error raised by a call, if any, and the instance after it. *)
Definition perform (self : PasswordRules_attributes) (c : call)
  : option error * PasswordRules_attributes :=
  match c with
  | assign_min_number_of_chars v => assigned self (set_min_number_of_chars self v)
  | assign_max_number_of_chars v => assigned self (set_max_number_of_chars self v)
  | assign_allowed_special_characters v =>
      assigned self (set_allowed_special_characters self v)
  | assign_is_lower_case_required v => assigned self (set_is_lower_case_required self v)
  | assign_is_upper_case_required v => assigned self (set_is_upper_case_required self v)
  | assign_is_number_required v => assigned self (set_is_number_required self v)
  | assign_is_special_character_required v =>
      assigned self (set_is_special_character_required self v)
  | assign_customized_beginning v => assigned self (set_customized_beginning self v)
  | assign_customized_end v => assigned self (set_customized_end self v)
  | call_set_presence_rules l u n s => (None, set_presence_rules self l u n s)
  | call_set_customized_strings b e => set_customized_strings self b e
  end.

(** The instances a caller obtains from [__init__] with calls that all
    satisfy [permitted]; a caller that catches the error of a call goes on
    with the instance as that call left it. *)
Inductive reachable (permitted : call -> Prop) : PasswordRules_attributes -> Prop :=
| reachable_init : reachable permitted init
| reachable_perform (self : PasswordRules_attributes) (c : call) :
    reachable permitted self -> permitted c ->
    reachable permitted (snd (perform self c)).


(** The calls of [set_customized_strings] are made with values that have
    a length (a str, as documented, or a list). *)
Definition with_sized_customized_strings (c : call) : Prop :=
  match c with
  | call_set_customized_strings beginning end_ =>
      (exists n, py_len beginning = inr n) /\ (exists n, py_len end_ = inr n)
  | _ => True
  end.

(** The allowed special characters when each is a single character. *)
Fixpoint single_characters (items : list str) : option (list char) :=
  match items with
  | [] => Some []
  | [c] :: items' =>
      match single_characters items' with
      | Some cs => Some (c :: cs)
      | None => None
      end
  | _ => None
  end.

(** The rule set the validator and the generator read off an instance
    whose flags are bools, whose customized strings are strs and whose
    allowed special characters are single characters. *)
Definition rules_of (self : PasswordRules_attributes) : option Generator.PasswordRules :=
  match single_characters (_allowed_special_characters self),
        _is_lower_case_required self, _is_upper_case_required self,
        _is_number_required self, _is_special_character_required self,
        _customized_beginning self, _customized_end self with
  | Some allowed, PyBool lower_case, PyBool upper_case, PyBool number,
    PyBool special_character, PyStr beginning, PyStr end_ =>
      Some {| Generator.min_number_of_chars := _min_number_of_chars self;
              Generator.max_number_of_chars := _max_number_of_chars self;
              Generator.allowed_special_characters := allowed;
              Generator.is_lower_case_required := lower_case;
              Generator.is_upper_case_required := upper_case;
              Generator.is_number_required := number;
              Generator.is_special_character_required := special_character;
              Generator.customized_beginning := beginning;
              Generator.customized_end := end_ |}
  | _, _, _, _, _, _, _ => None
  end.

(** *** The caller: [PasswordGeneratorWidget.__generate] *)

(** What the method reads from the widgets. *)
Record form : Type := {
  spin_box_chars_min : Z;
  spin_box_chars_max : Z;
  line_edit_special_chars : str;
  check_box_lower_case_letter : bool;
  check_box_upper_case_letter : bool;
  check_box_number : bool;
  check_box_special_char : bool;
  line_edit_first_chars : str;
  line_edit_last_chars : str;
  group_box_send_mail : bool
}.

(** "Retrieve the rules values": the instance built from the form. *)
Definition retrieve_rules (f : form) : error + PasswordRules_attributes :=
  match set_min_number_of_chars init (PyInt (spin_box_chars_min f)) with
  | inl e => inl e
  | inr rules =>
      match set_max_number_of_chars rules (PyInt (spin_box_chars_max f)) with
      | inl e => inl e
      | inr rules =>
          match set_allowed_special_characters rules
                  (PyList (map (fun c => PyStr [c]) (line_edit_special_chars f))) with
          | inl e => inl e
          | inr rules =>
              let rules :=
                set_presence_rules rules
                  (PyBool (check_box_lower_case_letter f))
                  (PyBool (check_box_upper_case_letter f))
                  (PyBool (check_box_number f)) (PyBool (check_box_special_char f)) in
              match set_customized_strings rules
                      (PyStr (line_edit_first_chars f))
                      (PyStr (line_edit_last_chars f)) with
              | (Some e, _) => inl e
              | (None, rules) => inr rules
              end
          end
      end
  end.

(** What [__generate] ends with. *)
Inductive outcome : Type :=
| set_plain_text (text : str)               (* the text shown in the results *)
| raised (e : error)                         (* an uncaught error of a setter *)
| raised_by_generate (e : Generator.exn)     (* an uncaught error of generate *)
| raised_AttributeError (attribute : str).   (* an attribute the widget does not have *)

(** [__generate]; [{e}] is the message of the [PasswordRuleError].  The
    method that sends the password is defined as [__send_password_by_email],
    a name Python mangles inside the class, and is called here as
    [self._send_password_by_email], an attribute that does not exist.  The
    generator is modelled on rule sets whose allowed special characters are
    single characters: the result is [None] on other instances, which
    [retrieve_rules] does not build. *)
Definition generate_clicked (U : unicode) (f : form) (r : Generator.randomness)
  : option outcome :=
  match retrieve_rules f with
  | inl e => Some (raised e)
  | inr rules =>
      match rules_of rules with
      | None => None
      | Some rules =>
          match Generator.run (Generator.generate U rules) r with
          | inl (Generator.PasswordRuleError e) =>
              Some (set_plain_text (lit "The following error occurred :" ++ [10%N] ++ e))
          | inl e => Some (raised_by_generate e)
          | inr generated_password =>
              if group_box_send_mail f
              then Some (raised_AttributeError (lit "_send_password_by_email"))
              else Some (set_plain_text
                           (lit "The generated password is :" ++ [10%N] ++ lit "'"
                            ++ generated_password ++ lit "'"))
          end
      end
  end.

(** The rule set that corresponds to a form. *)
Definition rules_of_form (f : form) : Generator.PasswordRules := {|
  Generator.min_number_of_chars := spin_box_chars_min f;
  Generator.max_number_of_chars := spin_box_chars_max f;
  Generator.allowed_special_characters := line_edit_special_chars f;
  Generator.is_lower_case_required := check_box_lower_case_letter f;
  Generator.is_upper_case_required := check_box_upper_case_letter f;
  Generator.is_number_required := check_box_number f;
  Generator.is_special_character_required := check_box_special_char f;
  Generator.customized_beginning := line_edit_first_chars f;
  Generator.customized_end := line_edit_last_chars f
|}.

(** The form of the example [Scenarios.mixed_rules]. *)
Definition mixed_form : form := {|
  spin_box_chars_min := 8;
  spin_box_chars_max := 12;
  line_edit_special_chars := lit "#!";
  check_box_lower_case_letter := true;
  check_box_upper_case_letter := true;
  check_box_number := true;
  check_box_special_char := true;
  line_edit_first_chars := lit "x";
  line_edit_last_chars := lit "#";
  group_box_send_mail := false
|}.

End RulesObject.

(** ** Properties of password_generator.py *)

Module GeneratorProofs.

Import Generator.

Lemma random_choice_In (seq : list char) (r : randomness) :
  seq <> [] -> exists c r', random_choice seq r = inr (c, r') /\ In c seq.
Proof.
  destruct seq as [|d seq]; [congruence|]. intros _.
  unfold random_choice, bind, draw, ret.
  destruct r as [|n r].
  - eexists _, _. split; [reflexivity|]. apply nth_In. apply Nat.mod_upper_bound. discriminate.
  - eexists _, _. split; [reflexivity|]. apply nth_In. apply Nat.mod_upper_bound. discriminate.
Qed.

Lemma random_randrange_spec (start stop : Z) (r : randomness) :
  start < stop ->
  exists k r', random_randrange start stop r = inr (k, r') /\ start <= k < stop.
Proof.
  intros H. unfold random_randrange.
  destruct (Z.leb_spec stop start); [lia|].
  unfold bind, draw, ret.
  destruct r as [|n r]; eexists _, _; (split; [reflexivity|]).
  - pose proof (Z.mod_pos_bound (Z.of_nat 0) (stop - start)). lia.
  - pose proof (Z.mod_pos_bound (Z.of_nat n) (stop - start)). lia.
Qed.

Lemma str_of_digit (d : Z) :
  0 <= d < 10 -> exists c, str_of_int d = [c] /\ In c digits.
Proof.
  intros H.
  assert (E : d = 0 \/ d = 1 \/ d = 2 \/ d = 3 \/ d = 4 \/ d = 5 \/ d = 6 \/ d = 7 \/ d = 8 \/ d = 9) by lia.
  repeat (destruct E as [E|E]); subst d; eexists; (split; [reflexivity|]); vm_compute; tauto.
Qed.

Lemma append_random_chars_spec (pool : list char) :
  pool <> [] ->
  forall (n : nat) (password : str) (r : randomness),
  exists fill r',
    append_random_chars n pool password r = inr (password ++ fill, r')
    /\ List.length fill = n /\ Forall (fun c => In c pool) fill.
Proof.
  intros Hpool. induction n as [|n IH]; intros password r; simpl.
  - exists [], r. rewrite app_nil_r. auto.
  - unfold bind.
    destruct (random_choice_In pool r Hpool) as (c & r1 & -> & Hc).
    destruct (IH (password ++ [c]) r1) as (fill & r2 & -> & Hlen & Hall).
    exists (c :: fill), r2. rewrite <- app_assoc. simpl. auto.
Qed.

Lemma unsatisfied_mark (s : rule_state) : unsatisfied (mark s) = false.
Proof. unfold unsatisfied, mark. simpl. apply andb_false_r. Qed.

Lemma digits_nonempty : digits <> []. Proof. discriminate. Qed.
Lemma lowercase_nonempty : ascii_lowercase <> []. Proof. discriminate. Qed.
Lemma uppercase_nonempty : ascii_uppercase <> []. Proof. discriminate. Qed.

Section Satisfy.
Variable U : unicode.
Variable self : PasswordRules.

Lemma satisfy_rules_spec (n : nat) :
  forall (states : rules_states) (password : str) (r : randomness),
    (pending states Special = true -> allowed_special_characters self <> []) ->
    count_pending states = n ->
    exists added r' states',
      satisfy_rules n self states password r = inr ((states', password ++ added), r')
      /\ List.length added = n
      /\ Forall (fun c => exists k, pending states k = true /\ In c (alphabet self k)) added
      /\ (forall k, pending states k = true -> exists c, In c added /\ In c (alphabet self k)).
Proof.
  induction n as [|n IH]; intros states password r Hsp Hcount.
  - exists [], r, states. simpl. rewrite app_nil_r. repeat split; auto.
    intros k Hk. exfalso. unfold count_pending in Hcount.
    destruct k; rewrite Hk in Hcount; simpl in Hcount; lia.
  - unfold count_pending, pending in *. cbn [state_of] in Hsp, Hcount. cbn [satisfy_rules].
    destruct (unsatisfied (lower_case states)) eqn:El.
    { unfold bind at 1.
      destruct (random_choice_In ascii_lowercase r lowercase_nonempty) as (c & r1 & -> & Hc).
      match goal with |- context [satisfy_rules n self ?st _ _] =>
        destruct (IH st (password ++ [c]) r1) as (added & r2 & st' & -> & Hlen & Hall & Hex) end.
      { simpl. exact Hsp. }
      { simpl. rewrite unsatisfied_mark. simpl in *. lia. }
      exists (c :: added), r2, st'. rewrite <- app_assoc. simpl.
      split; [reflexivity|]. split; [lia|]. split.
      - constructor.
        + exists Lower. auto.
        + eapply Forall_impl; [|exact Hall]. intros a (k & Hk & Ha). exists k. split; [|exact Ha].
          destruct k; cbn [state_of lower_case upper_case number special_character] in Hk |- *;
            first [assumption | congruence | (rewrite unsatisfied_mark in Hk; discriminate)].
      - intros k Hk. destruct k; cbn [state_of] in Hk.
        + exists c. simpl. auto.
        + destruct (Hex Upper Hk) as (a & Ha & Hb). exists a. simpl; auto.
        + destruct (Hex Digit Hk) as (a & Ha & Hb). exists a. simpl; auto.
        + destruct (Hex Special Hk) as (a & Ha & Hb). exists a. simpl; auto. }
    destruct (unsatisfied (upper_case states)) eqn:Eu.
    { unfold bind at 1.
      destruct (random_choice_In ascii_uppercase r uppercase_nonempty) as (c & r1 & -> & Hc).
      match goal with |- context [satisfy_rules n self ?st _ _] =>
        destruct (IH st (password ++ [c]) r1) as (added & r2 & st' & -> & Hlen & Hall & Hex) end.
      { simpl. exact Hsp. }
      { simpl. rewrite unsatisfied_mark, El. simpl in *. lia. }
      exists (c :: added), r2, st'. rewrite <- app_assoc. simpl.
      split; [reflexivity|]. split; [lia|]. split.
      - constructor.
        + exists Upper. auto.
        + eapply Forall_impl; [|exact Hall]. intros a (k & Hk & Ha). exists k. split; [|exact Ha].
          destruct k; cbn [state_of lower_case upper_case number special_character] in Hk |- *;
            first [assumption | congruence | (rewrite unsatisfied_mark in Hk; discriminate)].
      - intros k Hk. destruct k; cbn [state_of] in Hk; try congruence.
        + exists c. simpl. auto.
        + destruct (Hex Digit Hk) as (a & Ha & Hb). exists a. simpl; auto.
        + destruct (Hex Special Hk) as (a & Ha & Hb). exists a. simpl; auto. }
    destruct (unsatisfied (number states)) eqn:En.
    { unfold bind at 1.
      destruct (random_randrange_spec 0 (9 + 1) r) as (d & r1 & Hd & Hrange); [lia|].
      unfold random_randint. rewrite Hd.
      destruct (str_of_digit d) as (c & -> & Hc); [lia|].
      match goal with |- context [satisfy_rules n self ?st _ _] =>
        destruct (IH st (password ++ [c]) r1) as (added & r2 & st' & -> & Hlen & Hall & Hex) end.
      { simpl. exact Hsp. }
      { simpl. rewrite unsatisfied_mark, El, Eu. simpl in *. lia. }
      exists (c :: added), r2, st'. rewrite <- app_assoc. simpl.
      split; [reflexivity|]. split; [lia|]. split.
      - constructor.
        + exists Digit. auto.
        + eapply Forall_impl; [|exact Hall]. intros a (k & Hk & Ha). exists k. split; [|exact Ha].
          destruct k; cbn [state_of lower_case upper_case number special_character] in Hk |- *;
            first [assumption | congruence | (rewrite unsatisfied_mark in Hk; discriminate)].
      - intros k Hk. destruct k; cbn [state_of] in Hk; try congruence.
        + exists c. simpl. auto.
        + destruct (Hex Special Hk) as (a & Ha & Hb). exists a. simpl; auto. }
    destruct (unsatisfied (special_character states)) eqn:Es.
    { unfold bind at 1.
      destruct (random_choice_In (allowed_special_characters self) r (Hsp eq_refl))
        as (c & r1 & -> & Hc).
      match goal with |- context [satisfy_rules n self ?st _ _] =>
        destruct (IH st (password ++ [c]) r1) as (added & r2 & st' & -> & Hlen & Hall & Hex) end.
      { simpl. rewrite unsatisfied_mark. discriminate. }
      { simpl. rewrite unsatisfied_mark, El, Eu, En. simpl in *. lia. }
      exists (c :: added), r2, st'. rewrite <- app_assoc. simpl.
      split; [reflexivity|]. split; [lia|]. split.
      - constructor.
        + exists Special. auto.
        + eapply Forall_impl; [|exact Hall]. intros a (k & Hk & Ha). exists k. split; [|exact Ha].
          destruct k; cbn [state_of lower_case upper_case number special_character] in Hk |- *;
            first [assumption | congruence | (rewrite unsatisfied_mark in Hk; discriminate)].
      - intros k Hk. destruct k; cbn [state_of] in Hk; try congruence.
        exists c. simpl. auto. }
    simpl in Hcount. lia.
Qed.
End Satisfy.

Lemma len_app (s t : str) : len (s ++ t) = len s + len t.
Proof. unfold len. rewrite length_app. lia. Qed.

Lemma len_nonneg (s : str) : 0 <= len s.
Proof. unfold len. lia. Qed.

Lemma len_pos_nonempty (s : str) : (len s >? 0) = negb (match s with [] => true | _ => false end).
Proof. destruct s; [reflexivity|]. unfold len. simpl List.length. destruct (Z.gtb_spec (Z.of_nat (S (List.length s))) 0); [reflexivity|lia]. Qed.

Section Validator.
Variable U : unicode.

Lemma nb_satisfied_le (rules : PasswordRules) (s : str) :
  0 <= get_nb_of_rules_satisfied_by_string U rules s <= get_nb_of_presence_rules rules.
Proof.
  unfold get_nb_of_rules_satisfied_by_string, get_nb_of_presence_rules.
  destruct (is_lower_case_required rules), (is_upper_case_required rules),
    (is_number_required rules), (is_special_character_required rules);
    cbn [andb];
    destruct (is_lower_case_rule_satisfied U rules s), (is_upper_case_rule_satisfied U rules s),
      (is_number_rule_satisfied U rules s), (is_special_character_rule_satisfied rules s);
    cbn; lia.
Qed.

Lemma check_rules_consistency_true (rules : PasswordRules) (reason : str) :
  check_rules_consistency U rules = (true, reason) -> passes_checks U rules /\ reason = lit "".
Proof.
  unfold check_rules_consistency.
  destruct (Z.eqb_spec (get_nb_of_presence_rules rules) 0) as [|Hn]; [discriminate|].
  destruct (Z.gtb_spec (length_of_customized_beginning rules + length_of_customized_end rules)
              (max_number_of_chars rules)) as [|Hfit].
  { destruct (_ >? _); [discriminate|]. destruct (_ >? _); discriminate. }
  unfold length_of_customized_beginning, length_of_customized_end in *.
  rewrite !len_pos_nonempty.
  destruct (negb _ && negb (check_string_consistency U rules (customized_beginning rules))) eqn:Eb;
    [discriminate|].
  destruct (negb _ && negb (check_string_consistency U rules (customized_end rules))) eqn:Ee;
    [discriminate|].
  destruct (Z.gtb_spec (min_number_of_chars rules) (max_number_of_chars rules)) as [|Hmm];
    [discriminate|].
  cbv zeta.
  assert (Hrest :
    (if is_special_character_required rules
        && match allowed_special_characters rules with [] => true | _ :: _ => false end
     then (false, reason_no_special_character) else (true, lit "")) = (true, reason) ->
    (is_special_character_required rules = true -> allowed_special_characters rules <> [])
    /\ reason = lit "").
  { destruct (is_special_character_required rules); cbn [andb].
    - destruct (allowed_special_characters rules); [discriminate|].
      intros [= <-]. split; [intros _; discriminate | reflexivity].
    - intros [= <-]. split; [discriminate | reflexivity]. }
  assert (Hbeg : customized_beginning rules = [] \/
                 check_string_consistency U rules (customized_beginning rules) = true).
  { destruct (customized_beginning rules); [auto|]. cbn [negb andb] in Eb.
    right. destruct (check_string_consistency U rules (c :: s)); [reflexivity|discriminate]. }
  assert (Hend : customized_end rules = [] \/
                 check_string_consistency U rules (customized_end rules) = true).
  { destruct (customized_end rules); [auto|]. cbn [negb andb] in Ee.
    right. destruct (check_string_consistency U rules (c :: s)); [reflexivity|discriminate]. }
  destruct (Z.gtb_spec (get_nb_of_presence_rules rules) (min_number_of_chars rules)) as [Hgt|Hle].
  - destruct (match customized_beginning rules with [] => true | _ => false end
              && match customized_end rules with [] => true | _ => false end) eqn:Ecust;
      [discriminate|].
    assert (Hcust : customized_beginning rules <> [] \/ customized_end rules <> []).
    { destruct (customized_beginning rules); [|left; discriminate].
      destruct (customized_end rules); [discriminate|right; discriminate]. }
    pose proof (nb_satisfied_le rules (customized_beginning rules ++ customized_end rules)) as Hs.
    pose proof (len_app (customized_beginning rules) (customized_end rules)) as Hl.
    destruct (Z.ltb_spec (get_nb_of_rules_satisfied_by_string U rules
                            (customized_beginning rules ++ customized_end rules))
                (get_nb_of_presence_rules rules)) as [Hlt|Hge].
    + destruct (Z.ltb_spec (max_number_of_chars rules
                            - len (customized_beginning rules ++ customized_end rules))
                  (get_nb_of_presence_rules rules
                   - get_nb_of_rules_satisfied_by_string U rules
                       (customized_beginning rules ++ customized_end rules))) as [|Hroom];
        [discriminate|].
      intros H. destruct (Hrest H) as [Hsp ->]. split; [|reflexivity].
      constructor; unfold length_of_customized_beginning, length_of_customized_end; auto; try lia; try (intros _; split; [exact Hcust | lia]).
    + intros H. destruct (Hrest H) as [Hsp ->]. split; [|reflexivity].
      constructor; unfold length_of_customized_beginning, length_of_customized_end; auto; try lia; try (intros _; split; [exact Hcust | lia]).
  - intros H. destruct (Hrest H) as [Hsp ->]. split; [|reflexivity].
    constructor; unfold length_of_customized_beginning, length_of_customized_end; auto; try lia.
Qed.
End Validator.

Section InitialStates.
Variable U : unicode.

Lemma rule_satisfied_nil (rules : PasswordRules) (k : char_class) :
  rule_satisfied U rules k [] = false.
Proof. destruct k; reflexivity. Qed.

Lemma initial_states_spec (rules : PasswordRules) :
  let customized := customized_beginning rules ++ customized_end rules in
  let '(states, nb_of_unsatisfied_rules) := initial_states U rules in
  nb_of_unsatisfied_rules
  = get_nb_of_presence_rules rules - get_nb_of_rules_satisfied_by_string U rules customized
  /\ nb_of_unsatisfied_rules = Z.of_nat (count_pending states)
  /\ forall k, pending states k
               = class_required rules k && negb (rule_satisfied U rules k customized).
Proof.
  destruct rules as [mn mx al fl fu fn fs beg en].
  unfold initial_states, length_of_customized_beginning, length_of_customized_end.
  rewrite !len_pos_nonempty.
  unfold get_nb_of_rules_satisfied_by_string, get_nb_of_presence_rules,
    count_pending, pending, unsatisfied, class_required, rule_satisfied.
  cbn [customized_beginning customized_end is_lower_case_required is_upper_case_required
       is_number_required is_special_character_required].
  destruct beg as [|b0 bs]; [destruct en as [|e0 es]|]; cbn [negb orb].
  - destruct fl, fu, fn, fs; cbn; (repeat split); intros []; reflexivity.
  - destruct (is_lower_case_rule_satisfied U _ _), (is_upper_case_rule_satisfied U _ _),
      (is_number_rule_satisfied U _ _), (is_special_character_rule_satisfied _ _);
      destruct fl, fu, fn, fs; cbn; (repeat split); intros []; reflexivity.
  - destruct (is_lower_case_rule_satisfied U _ _), (is_upper_case_rule_satisfied U _ _),
      (is_number_rule_satisfied U _ _), (is_special_character_rule_satisfied _ _);
      destruct fl, fu, fn, fs; cbn; (repeat split); intros []; reflexivity.
Qed.
End InitialStates.

Section Shape.
Variable U : unicode.

Lemma additional_chars_alphabet (rules : PasswordRules) (c : char) :
  In c (additional_chars rules)
  <-> exists k, class_required rules k = true /\ In c (alphabet rules k).
Proof.
  unfold additional_chars. rewrite !in_app_iff. split.
  - intros [H|[H|[H|H]]].
    + exists Lower. cbn. destruct (is_lower_case_required rules); [auto|contradiction].
    + exists Upper. cbn. destruct (is_upper_case_required rules); [auto|contradiction].
    + exists Digit. cbn. destruct (is_number_required rules); [auto|contradiction].
    + exists Special. cbn. destruct (is_special_character_required rules); [auto|contradiction].
  - intros ([] & Hk & Hc); cbn in Hk, Hc; rewrite Hk; auto.
Qed.

Lemma additional_chars_nonempty (rules : PasswordRules) :
  passes_checks U rules -> additional_chars rules <> [].
Proof.
  intros [Hn _ _ _ _ _ Hsp]. unfold additional_chars, get_nb_of_presence_rules in *.
  destruct (is_lower_case_required rules); [discriminate|].
  destruct (is_upper_case_required rules); [discriminate|].
  destruct (is_number_required rules); [discriminate|].
  destruct (is_special_character_required rules); [|cbn in Hn; lia].
  cbn. auto.
Qed.

Lemma generate_shape_run (rules : PasswordRules) (reason : str) (r : randomness) :
  check_rules_consistency U rules = (true, reason) ->
  let customized := customized_beginning rules ++ customized_end rules in
  exists added fill r',
    generate U rules r
    = inr (customized_beginning rules ++ added ++ fill ++ customized_end rules, r')
    /\ len added
       = get_nb_of_presence_rules rules - get_nb_of_rules_satisfied_by_string U rules customized
    /\ Forall (fun c => exists k, class_required rules k = true /\ In c (alphabet rules k))
         (added ++ fill)
    /\ (forall k, class_required rules k = true ->
                  rule_satisfied U rules k customized = false ->
                  exists c, In c added /\ In c (alphabet rules k))
    /\ min_number_of_chars rules <= len customized + len added + len fill
    /\ (len customized + len added <= max_number_of_chars rules ->
        len customized + len added + len fill <= max_number_of_chars rules)
    /\ (max_number_of_chars rules <= len customized + len added -> fill = [])
    /\ exists states' r1,
         satisfy_rules (Z.to_nat (snd (initial_states U rules))) rules
           (fst (initial_states U rules)) (customized_beginning rules) r
         = inr ((states', customized_beginning rules ++ added), r1).
Proof.
  intros Hc customized.
  destruct (check_rules_consistency_true U rules reason Hc) as [Hp _].
  pose proof (additional_chars_nonempty rules Hp) as Hpool.
  pose proof (nb_satisfied_le U rules customized) as Hs.
  assert (Hlc : len customized = len (customized_beginning rules) + len (customized_end rules))
    by apply len_app.
  unfold generate. rewrite Hc. cbn [negb].
  pose proof (initial_states_spec U rules) as Hi. cbv zeta in Hi.
  destruct (initial_states U rules) as [states u]. destruct Hi as (Hu & Hcount & Hpend).
  fold customized in Hu, Hpend.
  unfold bind at 1.
  destruct (satisfy_rules_spec rules (Z.to_nat u) states (customized_beginning rules) r)
    as (added & r1 & st' & Hsat & Hlen & Hall & Hex).
  { rewrite Hpend. cbn. intros H. apply andb_prop in H. apply (special_ok U rules Hp), H. }
  { lia. }
  rewrite Hsat. cbn [snd fst].
  assert (Hla : len added = get_nb_of_presence_rules rules
                           - get_nb_of_rules_satisfied_by_string U rules customized)
    by (unfold len; lia).
  assert (Hall' : Forall (fun c => exists k, class_required rules k = true
                                            /\ In c (alphabet rules k)) added).
  { eapply Forall_impl; [|exact Hall]. intros c (k & Hk & Hin). exists k. split; [|exact Hin].
    rewrite Hpend in Hk. apply andb_prop in Hk. apply Hk. }
  assert (Hex' : forall k, class_required rules k = true ->
                           rule_satisfied U rules k customized = false ->
                           exists c, In c added /\ In c (alphabet rules k)).
  { intros k Hk Hns. apply Hex. rewrite Hpend, Hk, Hns. reflexivity. }
  set (pw0 := customized_beginning rules ++ added).
  assert (Hl0 : len pw0 = len (customized_beginning rules) + len added) by apply len_app.
  unfold length_of_customized_end.
  (* the random fill *)
  unfold bind at 1.
  match goal with |- context [match ?m r1 with _ => _ end] =>
    assert (Hfill1 : exists fill1 r2,
      m r1 = inr (pw0 ++ fill1, r2)
      /\ Forall (fun c => In c (additional_chars rules)) fill1
      /\ (len customized + len added <= max_number_of_chars rules ->
          len customized + len added + len fill1 <= max_number_of_chars rules)
      /\ (max_number_of_chars rules <= len customized + len added -> fill1 = []))
  end.
  {       destruct (Z.gtb_spec (max_number_of_chars rules - len pw0 - len (customized_end rules)) 0)
      as [Hpos|Hneg].
    - unfold bind.
      destruct (random_randrange_spec 1
                  (max_number_of_chars rules - len pw0 - len (customized_end rules) + 1) r1)
        as (k & r2 & -> & Hk); [lia|].
      destruct (append_random_chars_spec (additional_chars rules) Hpool (Z.to_nat k) pw0 r2)
        as (fill1 & r3 & -> & Hlf & Hallf).
      exists fill1, r3. split; [reflexivity|]. split; [exact Hallf|].
      unfold len in *. split; [lia|]. intros; lia.
    - exists [], r1. rewrite app_nil_r. split; [reflexivity|]. split; [constructor|].
      unfold len in *. cbn. split; [lia|]. reflexivity. }
  destruct Hfill1 as (fill1 & r2 & -> & Hall1 & Hmax1 & Hnil1).
  set (pw1 := pw0 ++ fill1).
  assert (Hl1 : len pw1 = len pw0 + len fill1) by apply len_app.
  (* the top-up *)
  unfold bind at 1.
  destruct (Z.ltb_spec (len pw1 + len (customized_end rules)) (min_number_of_chars rules))
    as [Hshort|Hlong].
  - destruct (append_random_chars_spec (additional_chars rules) Hpool
                (Z.to_nat (min_number_of_chars rules - (len pw1 + len (customized_end rules))))
                pw1 r2) as (fill2 & r3 & -> & Hlf & Hallf).
    exists added, (fill1 ++ fill2), r3. unfold ret, pw1, pw0.
    pose proof (min_le_max U rules Hp) as Hmm.
    assert (Hl2 : len (fill1 ++ fill2) = len fill1 + len fill2) by apply len_app.
    assert (Hlf2 : len fill2 = min_number_of_chars rules - (len pw1 + len (customized_end rules)))
      by (unfold len in *; lia).
    split.
    { rewrite len_pos_nonempty. destruct (customized_end rules); cbn [negb];
        rewrite ?app_nil_r, <- ?app_assoc; reflexivity. }
    split; [exact Hla|]. split.
    { rewrite Forall_app. split; [exact Hall'|]. rewrite Forall_app. split.
      - eapply Forall_impl; [|exact Hall1]. intros c. apply additional_chars_alphabet.
      - eapply Forall_impl; [|exact Hallf]. intros c. apply additional_chars_alphabet. }
    split; [exact Hex'|].
    split; [lia|]. split; [lia|].
    split; [intros Hfull; exfalso; pose proof (len_nonneg fill1); lia|].
    exists st', r1. exact Hsat.
  - exists added, fill1, r2. unfold ret, pw1, pw0.
    split.
    { rewrite len_pos_nonempty. destruct (customized_end rules); cbn [negb];
        rewrite ?app_nil_r, <- ?app_assoc; reflexivity. }
    split; [exact Hla|]. split.
    { rewrite Forall_app. split; [exact Hall'|].
      eapply Forall_impl; [|exact Hall1]. intros c. apply additional_chars_alphabet. }
    split; [exact Hex'|].
    split; [lia|]. split; [exact Hmax1|]. split; [exact Hnil1|].
    exists st', r1. exact Hsat.
Qed.

Theorem generate_shape (rules : PasswordRules) (reason : str) (r : randomness) :
  check_rules_consistency U rules = (true, reason) ->
  let customized := customized_beginning rules ++ customized_end rules in
  exists added fill r',
    generate U rules r
    = inr (customized_beginning rules ++ added ++ fill ++ customized_end rules, r')
    /\ len added
       = get_nb_of_presence_rules rules - get_nb_of_rules_satisfied_by_string U rules customized
    /\ Forall (fun c => exists k, class_required rules k = true /\ In c (alphabet rules k))
         (added ++ fill)
    /\ (forall k, class_required rules k = true ->
                  rule_satisfied U rules k customized = false ->
                  exists c, In c added /\ In c (alphabet rules k))
    /\ min_number_of_chars rules <= len customized + len added + len fill
    /\ (len customized + len added <= max_number_of_chars rules ->
        len customized + len added + len fill <= max_number_of_chars rules)
    /\ (max_number_of_chars rules <= len customized + len added -> fill = []).
Proof.
  intros Hc customized.
  destruct (generate_shape_run rules reason r Hc)
    as (added & fill & r' & H1 & H2 & H3 & H4 & H5 & H6 & H7 & _).
  exists added, fill, r'. repeat split; assumption.
Qed.
End Shape.

(** *** Rule sets written in ASCII *)

Lemma existsb_ext_in {A} (f g : A -> bool) (l : list A) :
  (forall a, In a l -> f a = g a) -> existsb f l = existsb g l.
Proof.
  induction l as [|a l IH]; intros H; [reflexivity|].
  cbn. rewrite (H a (or_introl eq_refl)), IH; [reflexivity|].
  intros b Hb. apply H. right. exact Hb.
Qed.

Section Ascii.
Variable U : unicode.
Hypothesis HU : agrees_on_ascii U.

Lemma existsb_islower_ascii (s : str) :
  ascii_str s -> existsb (islower U) s = existsb (islower ascii_table) s.
Proof.
  intros Hs. apply existsb_ext_in. intros c Hc.
  apply HU. exact (proj1 (Forall_forall _ _) Hs c Hc).
Qed.

Lemma existsb_isupper_ascii (s : str) :
  ascii_str s -> existsb (isupper U) s = existsb (isupper ascii_table) s.
Proof.
  intros Hs. apply existsb_ext_in. intros c Hc.
  apply HU. exact (proj1 (Forall_forall _ _) Hs c Hc).
Qed.

Lemma existsb_isdigit_ascii (s : str) :
  ascii_str s -> existsb (isdigit U) s = existsb (isdigit ascii_table) s.
Proof.
  intros Hs. apply existsb_ext_in. intros c Hc.
  apply HU. exact (proj1 (Forall_forall _ _) Hs c Hc).
Qed.

Lemma check_string_consistency_ascii (rules : PasswordRules) (s : str) :
  ascii_str s ->
  check_string_consistency U rules s = check_string_consistency ascii_table rules s.
Proof.
  intros Hs. unfold check_string_consistency.
  rewrite (existsb_islower_ascii s Hs), (existsb_isupper_ascii s Hs),
    (existsb_isdigit_ascii s Hs).
  rewrite (existsb_ext_in (fun c => negb (isdigit U c) && negb (isalpha U c))
             (fun c => negb (isdigit ascii_table c) && negb (isalpha ascii_table c)) s).
  2:{ intros c Hc. destruct (HU c (proj1 (Forall_forall _ _) Hs c Hc)) as (_ & _ & -> & ->).
      reflexivity. }
  rewrite (existsb_ext_in
             (fun c => negb (mem c (allowed_special_characters rules))
                       && negb (isdigit U c) && negb (isalpha U c))
             (fun c => negb (mem c (allowed_special_characters rules))
                       && negb (isdigit ascii_table c) && negb (isalpha ascii_table c)) s).
  2:{ intros c Hc. destruct (HU c (proj1 (Forall_forall _ _) Hs c Hc)) as (_ & _ & -> & ->).
      reflexivity. }
  reflexivity.
Qed.

Lemma nb_of_rules_satisfied_ascii (rules : PasswordRules) (s : str) :
  ascii_str s ->
  get_nb_of_rules_satisfied_by_string U rules s
  = get_nb_of_rules_satisfied_by_string ascii_table rules s.
Proof.
  intros Hs. unfold get_nb_of_rules_satisfied_by_string, is_lower_case_rule_satisfied,
    is_upper_case_rule_satisfied, is_number_rule_satisfied.
  rewrite (existsb_islower_ascii s Hs), (existsb_isupper_ascii s Hs),
    (existsb_isdigit_ascii s Hs). reflexivity.
Qed.

Lemma check_rules_consistency_ascii (rules : PasswordRules) :
  ascii_str (customized_beginning rules) -> ascii_str (customized_end rules) ->
  check_rules_consistency U rules = check_rules_consistency ascii_table rules.
Proof.
  intros Hb He.
  assert (Hs : ascii_str (customized_beginning rules ++ customized_end rules))
    by (apply Forall_app; auto).
  unfold check_rules_consistency. cbv zeta.
  rewrite (check_string_consistency_ascii rules _ Hb),
    (check_string_consistency_ascii rules _ He),
    (nb_of_rules_satisfied_ascii rules _ Hs).
  reflexivity.
Qed.

Lemma initial_states_ascii (rules : PasswordRules) :
  ascii_str (customized_beginning rules) -> ascii_str (customized_end rules) ->
  initial_states U rules = initial_states ascii_table rules.
Proof.
  intros Hb He.
  assert (Hs : ascii_str (customized_beginning rules ++ customized_end rules))
    by (apply Forall_app; auto).
  unfold initial_states, is_lower_case_rule_satisfied, is_upper_case_rule_satisfied,
    is_number_rule_satisfied. cbv zeta.
  rewrite (nb_of_rules_satisfied_ascii rules _ Hs), (existsb_islower_ascii _ Hs),
    (existsb_isupper_ascii _ Hs), (existsb_isdigit_ascii _ Hs).
  reflexivity.
Qed.

Lemma generate_ascii (rules : PasswordRules) (r : randomness) :
  ascii_str (customized_beginning rules) -> ascii_str (customized_end rules) ->
  generate U rules r = generate ascii_table rules r.
Proof.
  intros Hb He. unfold generate.
  rewrite (check_rules_consistency_ascii rules Hb He), (initial_states_ascii rules Hb He).
  reflexivity.
Qed.

(** The characters [generate] draws for a class pass the test of that
    class. *)
Lemma alphabet_matches (rules : PasswordRules) (k : char_class) (c : char) :
  In c (alphabet rules k) -> class_matches U rules k c = true.
Proof.
  destruct k; cbn [alphabet class_matches]; intros Hc.
  - assert (H : (c < 128)%N /\ islower ascii_table c = true).
    { revert c Hc. apply Forall_forall. repeat (apply Forall_cons; [split; reflexivity|]).
      apply Forall_nil. }
    destruct H as [Hlt H]. rewrite <- H. apply HU, Hlt.
  - assert (H : (c < 128)%N /\ isupper ascii_table c = true).
    { revert c Hc. apply Forall_forall. repeat (apply Forall_cons; [split; reflexivity|]).
      apply Forall_nil. }
    destruct H as [Hlt H]. rewrite <- H. apply HU, Hlt.
  - assert (H : (c < 128)%N /\ isdigit ascii_table c = true).
    { revert c Hc. apply Forall_forall. repeat (apply Forall_cons; [split; reflexivity|]).
      apply Forall_nil. }
    destruct H as [Hlt H]. rewrite <- H. apply HU, Hlt.
  - unfold mem. apply existsb_exists. exists c. split; [exact Hc|]. apply N.eqb_refl.
Qed.
End Ascii.

Lemma ascii_table_agrees : agrees_on_ascii ascii_table.
Proof. intros c _. repeat split. Qed.

Lemma rule_satisfied_exists (U : unicode) (rules : PasswordRules) (k : char_class) (s : str) :
  rule_satisfied U rules k s = existsb (class_matches U rules k) s.
Proof. destruct k; reflexivity. Qed.

(** *** The pool of the random fill *)

Lemma tl_skipn (n : nat) (r : randomness) : skipn n (tl r) = skipn (S n) r.
Proof. destruct r; [destruct n; reflexivity|reflexivity]. Qed.

Lemma random_choice_draws (seq : list char) (r r' : randomness) (c : char) :
  random_choice seq r = inr (c, r') -> r' = tl r.
Proof.
  destruct seq as [|d seq]; [discriminate|].
  unfold random_choice, bind, draw, ret. destruct r; intros [= _ <-]; reflexivity.
Qed.

Lemma random_randrange_draws (start stop k : Z) (r r' : randomness) :
  random_randrange start stop r = inr (k, r') -> r' = tl r.
Proof.
  unfold random_randrange. destruct (stop <=? start); [discriminate|].
  unfold bind, draw, ret. destruct r; intros [= _ <-]; reflexivity.
Qed.

(** The loop that satisfies the pending rules draws one number for each. *)
Lemma satisfy_rules_draws (self : PasswordRules) (n : nat) :
  forall (states : rules_states) (password : str) (r r' : randomness)
         (result : rules_states * str),
    count_pending states = n ->
    satisfy_rules n self states password r = inr (result, r') ->
    r' = skipn n r.
Proof.
  induction n as [|n IH]; intros states password r r' result Hcount.
  - cbn. intros [= _ <-]. reflexivity.
  - unfold count_pending, pending in Hcount. cbn [state_of] in Hcount. cbn [satisfy_rules].
    destruct (unsatisfied (lower_case states)) eqn:El.
    { unfold bind at 1. destruct (random_choice ascii_lowercase r) as [e|[c r1]] eqn:Ec;
        [discriminate|].
      intros H. apply IH in H.
      - rewrite H, (random_choice_draws _ _ _ _ Ec). apply tl_skipn.
      - unfold count_pending, pending. cbn [state_of lower_case upper_case number
                                              special_character].
        rewrite unsatisfied_mark. cbn in *. lia. }
    destruct (unsatisfied (upper_case states)) eqn:Eu.
    { unfold bind at 1. destruct (random_choice ascii_uppercase r) as [e|[c r1]] eqn:Ec;
        [discriminate|].
      intros H. apply IH in H.
      - rewrite H, (random_choice_draws _ _ _ _ Ec). apply tl_skipn.
      - unfold count_pending, pending. cbn [state_of lower_case upper_case number
                                              special_character].
        rewrite unsatisfied_mark, El. cbn in *. lia. }
    destruct (unsatisfied (number states)) eqn:En.
    { unfold bind at 1, random_randint.
      destruct (random_randrange 0 (9 + 1) r) as [e|[d r1]] eqn:Ec; [discriminate|].
      intros H. apply IH in H.
      - rewrite H, (random_randrange_draws _ _ _ _ _ Ec). apply tl_skipn.
      - unfold count_pending, pending. cbn [state_of lower_case upper_case number
                                              special_character].
        rewrite unsatisfied_mark, El, Eu. cbn in *. lia. }
    destruct (unsatisfied (special_character states)) eqn:Es.
    { unfold bind at 1.
      destruct (random_choice (allowed_special_characters self) r) as [e|[c r1]] eqn:Ec;
        [discriminate|].
      intros H. apply IH in H.
      - rewrite H, (random_choice_draws _ _ _ _ Ec). apply tl_skipn.
      - unfold count_pending, pending. cbn [state_of lower_case upper_case number
                                              special_character].
        rewrite unsatisfied_mark, El, Eu, En. cbn in *. lia. }
    cbn in Hcount. lia.
Qed.

(** [random.choice] returns the element at the index drawn. *)
Lemma random_choice_at (seq : list char) (c : char) :
  In c seq ->
  exists i : nat, forall r : randomness, random_choice seq (i :: r) = inr (c, r).
Proof.
  intros Hc. destruct (In_nth seq c c Hc) as (i & Hi & Hnth).
  exists i. intros r. destruct seq as [|d seq]; [destruct Hc|].
  unfold random_choice, bind, draw, ret.
  rewrite Nat.mod_small by exact Hi.
  rewrite (nth_indep _ d c Hi), Hnth. reflexivity.
Qed.

(** When room is left after the customized strings and the characters that
    satisfy the pending rules, every character of [additional_chars] is
    drawn by some run of [generate], as the first character of the random
    fill. *)
Lemma generate_draws_from_pool
      (U : unicode) (rules : PasswordRules) (reason : str) (c : char) :
  check_rules_consistency U rules = (true, reason) ->
  len (customized_beginning rules ++ customized_end rules)
  + (get_nb_of_presence_rules rules
     - get_nb_of_rules_satisfied_by_string U rules
         (customized_beginning rules ++ customized_end rules))
  < max_number_of_chars rules ->
  In c (additional_chars rules) ->
  exists (r : randomness) (added rest : str),
    run (generate U rules) r
    = inr (customized_beginning rules ++ (added ++ c :: rest) ++ customized_end rules)
    /\ len added
       = get_nb_of_presence_rules rules
         - get_nb_of_rules_satisfied_by_string U rules
             (customized_beginning rules ++ customized_end rules).
Proof.
  intros Hc Hroom Hin.
  destruct (check_rules_consistency_true U rules reason Hc) as [Hp _].
  pose proof (additional_chars_nonempty U rules Hp) as Hpool.
  destruct (random_choice_at _ c Hin) as (i & Hi).
  pose proof (initial_states_spec U rules) as Hs. cbv zeta in Hs.
  destruct (initial_states U rules) as [states u] eqn:Ei.
  destruct Hs as (Hu & Hcount & Hpend).
  set (r := repeat 0%nat (Z.to_nat u) ++ [0%nat; i]).
  destruct (generate_shape_run U rules reason r Hc)
    as (added & fill0 & r0 & _ & Hla & _ & _ & _ & _ & _ & st' & r1 & Hsat).
  rewrite Ei in Hsat. cbn [fst snd] in Hsat.
  assert (Hr1 : r1 = [0%nat; i]).
  { rewrite (satisfy_rules_draws rules (Z.to_nat u) states _ r r1 _ ltac:(lia) Hsat).
    unfold r. rewrite skipn_app, repeat_length, Nat.sub_diag, skipn_all2
      by (rewrite repeat_length; lia).
    reflexivity. }
  subst r1.
  assert (Hlen : len (customized_beginning rules ++ customized_end rules)
                 = len (customized_beginning rules) + len (customized_end rules))
    by apply len_app.
  set (pw0 := customized_beginning rules ++ added) in *.
  assert (Hl0 : len pw0 = len (customized_beginning rules) + len added) by apply len_app.
  assert (Hleft : 0 < max_number_of_chars rules - len pw0 - len (customized_end rules))
    by lia.
  destruct (append_random_chars_spec (additional_chars rules) Hpool
              (Z.to_nat (min_number_of_chars rules
                         - (len (pw0 ++ [c]) + len (customized_end rules))))
              (pw0 ++ [c]) []) as (fill2 & r3 & Htop & _).
  exists r, added,
    (if len (pw0 ++ [c]) + len (customized_end rules) <? min_number_of_chars rules
     then fill2 else []).
  split; [|exact Hla].
  unfold run, generate. rewrite Hc, Ei. cbn [negb]. unfold bind at 1. rewrite Hsat.
  cbn [snd]. fold pw0. unfold length_of_customized_end.
  destruct (Z.gtb_spec (max_number_of_chars rules - len pw0 - len (customized_end rules)) 0)
    as [_|Hno]; [|lia].
  unfold bind at 1. unfold bind at 1.
  unfold random_randrange.
  destruct (Z.leb_spec (max_number_of_chars rules - len pw0 - len (customized_end rules) + 1) 1)
    as [Hno|_]; [lia|].
  unfold bind at 1. unfold draw at 1. unfold ret at 1.
  change (Z.of_nat 0) with 0. rewrite Z.mod_0_l by lia.
  change (Z.to_nat (1 + 0)) with 1%nat. cbn [append_random_chars].
  unfold bind at 1. rewrite Hi. unfold ret at 1.
  unfold bind at 1.
  destruct (Z.ltb_spec (len (pw0 ++ [c]) + len (customized_end rules))
              (min_number_of_chars rules)) as [Hshort|Hlong].
  - rewrite Htop. unfold ret. unfold pw0. rewrite len_pos_nonempty.
    destruct (customized_end rules); cbn [negb]; rewrite ?app_nil_r, <- ?app_assoc;
      reflexivity.
  - unfold ret. unfold pw0. rewrite len_pos_nonempty.
    destruct (customized_end rules); cbn [negb]; rewrite ?app_nil_r, <- ?app_assoc;
      reflexivity.
Qed.

(** On ASCII characters, the test of a class is passed by the characters of
    its alphabet only. *)
Lemma between_in_range (lo : nat) (n : nat) (c : char) :
  between (N.of_nat lo) (N.of_nat (lo + n - 1)) c = true ->
  (0 < n)%nat ->
  In c (map N.of_nat (seq lo n)).
Proof.
  unfold between. intros H Hn. apply andb_prop in H. destruct H as [H1 H2].
  apply N.leb_le in H1, H2. apply in_map_iff. exists (N.to_nat c). split.
  - apply N2Nat.id.
  - apply in_seq. lia.
Qed.

Lemma matches_alphabet (U : unicode) (rules : PasswordRules) (k : char_class) (c : char) :
  agrees_on_ascii U -> (c < 128)%N ->
  class_matches U rules k c = true -> In c (alphabet rules k).
Proof.
  intros HU Hc. destruct (HU c Hc) as (Hl & Hu & Hd & _).
  destruct k; cbn [class_matches alphabet].
  - rewrite Hl. intros H. exact (between_in_range 97 26 c H ltac:(lia)).
  - rewrite Hu. intros H. exact (between_in_range 65 26 c H ltac:(lia)).
  - rewrite Hd. intros H. exact (between_in_range 48 10 c H ltac:(lia)).
  - unfold mem. intros H. apply existsb_exists in H. destruct H as (x & Hx & E).
    apply N.eqb_eq in E. subst x. exact Hx.
Qed.

(** *** The validator and the generator on the claimed properties *)

Import Scenarios.

Lemma ascii_lit (s : string) :
  forallb (fun c => N.ltb c 128) (lit s) = true -> ascii_str (lit s).
Proof.
  intros H. apply Forall_forall. intros c Hc.
  apply N.ltb_lt. exact (proj1 (forallb_forall _ _) H c Hc).
Qed.

(** C1.  [generate] can return a password longer than 'max number of
    chars' on rules that [check_rules_consistency] accepts: with min = max = 8,
    the customized beginning "password" and the lower case and number rules,
    the rules are consistent and every run returns 9 characters. *)
Theorem generate_exceeds_max_number_of_chars (U : unicode) (r : randomness) :
  agrees_on_ascii U ->
  check_rules_consistency U password8_rules = (true, lit "")
  /\ max_number_of_chars password8_rules = 8
  /\ exists password,
       run (generate U password8_rules) r = inr password /\ len password = 9.
Proof.
  intros HU.
  assert (Hb : ascii_str (customized_beginning password8_rules))
    by (apply ascii_lit; reflexivity).
  assert (He : ascii_str (customized_end password8_rules)) by constructor.
  assert (Hc : check_rules_consistency U password8_rules = (true, lit "")).
  { rewrite (check_rules_consistency_ascii U HU _ Hb He). reflexivity. }
  split; [exact Hc|]. split; [reflexivity|].
  destruct (generate_shape U password8_rules (lit "") r Hc)
    as (added & fill & r' & Hrun & Hla & _ & _ & _ & _ & Hfull).
  rewrite (nb_of_rules_satisfied_ascii U HU) in Hla by (apply Forall_app; auto).
  change (len added = 1) in Hla.
  change (8 <= 8 + len added -> fill = []) in Hfull.
  rewrite Hfull in Hrun by lia.
  exists (customized_beginning password8_rules ++ added ++ [] ++ customized_end password8_rules).
  unfold run. rewrite Hrun. split; [reflexivity|].
  rewrite !len_app. change (8 + (len added + (0 + 0)) = 9). lia.
Qed.

Lemma generate_exceeds_max_number_of_chars_witness :
  check_rules_consistency ascii_table password8_rules = (true, lit "")
  /\ max_number_of_chars password8_rules = 8
  /\ exists password,
       run (generate ascii_table password8_rules) [3%nat] = inr password /\ len password = 9.
Proof.
  apply (generate_exceeds_max_number_of_chars ascii_table [3%nat]).
  exact ascii_table_agrees.
Defined.

(** C2, as stated, fails: with max = 1, the customized beginning "1" and the
    lower case and upper case rules, two required classes are unsatisfied and
    no room is left, yet the reason returned is the one of the earlier check
    on the customized first chars. *)
Lemma presence_reason_preempted :
  get_nb_of_presence_rules digit_prefix_rules
  - get_nb_of_rules_satisfied_by_string ascii_table digit_prefix_rules
      (customized_beginning digit_prefix_rules ++ customized_end digit_prefix_rules)
  > max_number_of_chars digit_prefix_rules
    - length_of_customized_beginning digit_prefix_rules
    - length_of_customized_end digit_prefix_rules
  /\ check_rules_consistency ascii_table digit_prefix_rules
     = (false, reason_first_chars_inconsistent)
  /\ reason_first_chars_inconsistent <> reason_presence_max.
Proof. split; [reflexivity|]. split; [reflexivity|discriminate]. Qed.

(** C2, amended.  On a rule set that passes the earlier checks (a presence
    rule is selected, the customized strings fit in max and break no rule,
    min <= max) and that selects more presence rules than min: without
    customized strings the validator answers with the reason on 'min nb of
    chars'; with customized strings, when the rules they leave unsatisfied
    outnumber the characters left below max, it answers with the reason on
    'max_nb_of_chars' and the customized strings. *)
Theorem presence_rules_room (U : unicode) (rules : PasswordRules) :
  get_nb_of_presence_rules rules <> 0 ->
  length_of_customized_beginning rules + length_of_customized_end rules
  <= max_number_of_chars rules ->
  (customized_beginning rules = []
   \/ check_string_consistency U rules (customized_beginning rules) = true) ->
  (customized_end rules = []
   \/ check_string_consistency U rules (customized_end rules) = true) ->
  min_number_of_chars rules <= max_number_of_chars rules ->
  get_nb_of_presence_rules rules > min_number_of_chars rules ->
  (customized_beginning rules = [] /\ customized_end rules = [] ->
   check_rules_consistency U rules = (false, reason_presence_min))
  /\ (customized_beginning rules <> [] \/ customized_end rules <> [] ->
      get_nb_of_presence_rules rules
      - get_nb_of_rules_satisfied_by_string U rules
          (customized_beginning rules ++ customized_end rules)
      > max_number_of_chars rules
        - length_of_customized_beginning rules - length_of_customized_end rules ->
      check_rules_consistency U rules = (false, reason_presence_max)).
Proof.
  intros Hn Hfit Hbeg Hend Hmm Hgt.
  unfold check_rules_consistency.
  destruct (Z.eqb_spec (get_nb_of_presence_rules rules) 0) as [|_]; [contradiction|].
  destruct (Z.gtb_spec (length_of_customized_beginning rules + length_of_customized_end rules)
              (max_number_of_chars rules)) as [|_]; [lia|].
  unfold length_of_customized_beginning, length_of_customized_end in *.
  rewrite !len_pos_nonempty.
  assert (Eb : negb (match customized_beginning rules with [] => true | _ => false end)
               && negb (check_string_consistency U rules (customized_beginning rules)) = false).
  { destruct Hbeg as [->| ->]; [reflexivity|apply andb_false_r]. }
  assert (Ee : negb (match customized_end rules with [] => true | _ => false end)
               && negb (check_string_consistency U rules (customized_end rules)) = false).
  { destruct Hend as [->| ->]; [reflexivity|apply andb_false_r]. }
  rewrite Eb, Ee.
  destruct (Z.gtb_spec (min_number_of_chars rules) (max_number_of_chars rules)) as [|_]; [lia|].
  cbv zeta.
  destruct (Z.gtb_spec (get_nb_of_presence_rules rules) (min_number_of_chars rules)) as [_|];
    [|lia].
  split.
  - intros [-> ->]. reflexivity.
  - intros Hcust Hroom.
    assert (Ec : match customized_beginning rules with [] => true | _ => false end
                 && match customized_end rules with [] => true | _ => false end = false).
    { destruct (customized_beginning rules); [|reflexivity].
      destruct (customized_end rules); [|reflexivity]. destruct Hcust; congruence. }
    rewrite Ec.
    pose proof (len_app (customized_beginning rules) (customized_end rules)) as Hl.
    pose proof (len_nonneg (customized_beginning rules)).
    pose proof (len_nonneg (customized_end rules)).
    destruct (Z.ltb_spec (get_nb_of_rules_satisfied_by_string U rules
                            (customized_beginning rules ++ customized_end rules))
                (get_nb_of_presence_rules rules)) as [_|]; [|lia].
    destruct (Z.ltb_spec (max_number_of_chars rules
                          - len (customized_beginning rules ++ customized_end rules))
                (get_nb_of_presence_rules rules
                 - get_nb_of_rules_satisfied_by_string U rules
                     (customized_beginning rules ++ customized_end rules))) as [_|]; [|lia].
    reflexivity.
Qed.

Lemma presence_rules_room_witness :
  check_rules_consistency ascii_table full_prefix_rules = (false, reason_presence_max).
Proof.
  apply (presence_rules_room ascii_table full_prefix_rules).
  - discriminate.
  - vm_compute. discriminate.
  - right. reflexivity.
  - left. reflexivity.
  - vm_compute. discriminate.
  - reflexivity.
  - left. discriminate.
  - reflexivity.
Defined.

(** C3, as stated, fails: with the special character rule alone and "a" as
    the allowed special character, the rules are consistent and the password
    generated is "a", a character of the lower case class, which is not
    required. *)
Lemma unrequired_class_generated :
  check_rules_consistency ascii_table special_a_rules = (true, lit "")
  /\ run (generate ascii_table special_a_rules) [] = inr (lit "a")
  /\ ~ only_required_classes ascii_table special_a_rules (lit "a").
Proof.
  split; [reflexivity|]. split; [reflexivity|].
  intros H. specialize (H (lit "a") eq_refl 97%N Lower (or_introl eq_refl) eq_refl).
  discriminate H.
Qed.

(** C3, amended.  On consistent rules every run of [generate] returns a
    password made of the customized beginning, a generated part and the
    customized end.  Every required class has a character in it that
    passes the test of the class ([islower], [isupper], [isdigit],
    membership of the allowed special characters); when the customized
    strings are ASCII, it has a character of the alphabet of the class
    (a-z, A-Z, 0-9, the allowed special characters).  Every character of
    the generated part belongs to [additional_chars], the pool of the
    random fill, which is exactly the union of the alphabets of the required
    classes; and when room is left for a random fill, every character of
    the pool is drawn by some run, right after the characters that satisfy
    the pending rules. *)
Theorem generate_covers_required_classes
        (U : unicode) (rules : PasswordRules) (reason : str) (r : randomness) :
  agrees_on_ascii U ->
  check_rules_consistency U rules = (true, reason) ->
  exists password generated,
    run (generate U rules) r = inr password
    /\ password = customized_beginning rules ++ generated ++ customized_end rules
    /\ (forall k, class_required rules k = true -> rule_satisfied U rules k password = true)
    /\ Forall (fun c => exists k, class_required rules k = true /\ In c (alphabet rules k))
         generated
    /\ (ascii_str (customized_beginning rules) -> ascii_str (customized_end rules) ->
        forall k, class_required rules k = true ->
                  exists c, In c password /\ In c (alphabet rules k))
    /\ Forall (fun c => In c (additional_chars rules)) generated
    /\ (forall c, In c (additional_chars rules)
                  <-> exists k, class_required rules k = true /\ In c (alphabet rules k))
    /\ (len (customized_beginning rules ++ customized_end rules)
        + (get_nb_of_presence_rules rules
           - get_nb_of_rules_satisfied_by_string U rules
               (customized_beginning rules ++ customized_end rules))
        < max_number_of_chars rules ->
        forall c, In c (additional_chars rules) ->
                  exists (r' : randomness) (added rest : str),
                    run (generate U rules) r'
                    = inr (customized_beginning rules ++ (added ++ c :: rest)
                                                      ++ customized_end rules)
                    /\ len added
                       = get_nb_of_presence_rules rules
                         - get_nb_of_rules_satisfied_by_string U rules
                             (customized_beginning rules ++ customized_end rules)).
Proof.
  intros HU Hc.
  destruct (generate_shape U rules reason r Hc)
    as (added & fill & r' & Hrun & _ & Hall & Hex & _).
  exists (customized_beginning rules ++ (added ++ fill) ++ customized_end rules), (added ++ fill).
  unfold run. rewrite Hrun, <- !app_assoc.
  split; [reflexivity|]. split; [reflexivity|]. split; [|split; [exact Hall|]].
  { intros k Hk. rewrite rule_satisfied_exists.
    destruct (rule_satisfied U rules k (customized_beginning rules ++ customized_end rules)) eqn:Es.
    - rewrite rule_satisfied_exists in Es. apply existsb_exists in Es. destruct Es as (c & Hin & Hm).
      apply existsb_exists. exists c. split; [|exact Hm].
      rewrite !in_app_iff in *. tauto.
    - destruct (Hex k Hk Es) as (c & Hin & Ha).
      apply existsb_exists. exists c. split.
      + rewrite !in_app_iff. tauto.
      + exact (alphabet_matches U HU rules k c Ha). }
  split; [|split; [|split]].
  - intros Hb He k Hk.
    destruct (rule_satisfied U rules k (customized_beginning rules ++ customized_end rules)) eqn:Es.
    + rewrite rule_satisfied_exists in Es. apply existsb_exists in Es. destruct Es as (c & Hin & Hm).
      exists c. split; [rewrite !in_app_iff in *; tauto|].
      apply (matches_alphabet U rules k c HU); [|exact Hm].
      apply in_app_iff in Hin. destruct Hin as [Hin|Hin].
      * exact (proj1 (Forall_forall _ _) Hb c Hin).
      * exact (proj1 (Forall_forall _ _) He c Hin).
    + destruct (Hex k Hk Es) as (c & Hin & Ha).
      exists c. split; [rewrite !in_app_iff; tauto|exact Ha].
  - eapply Forall_impl; [|exact Hall]. intros c. apply additional_chars_alphabet.
  - intros c. apply additional_chars_alphabet.
  - intros Hroom c Hin. exact (generate_draws_from_pool U rules reason c Hc Hroom Hin).
Qed.

Lemma generate_covers_required_classes_witness :
  exists password generated,
    run (generate ascii_table mixed_rules) [5; 7; 3; 1; 2; 70; 33]%nat = inr password
    /\ password = customized_beginning mixed_rules ++ generated ++ customized_end mixed_rules
    /\ (forall k, class_required mixed_rules k = true ->
                  rule_satisfied ascii_table mixed_rules k password = true)
    /\ Forall (fun c => exists k, class_required mixed_rules k = true
                                  /\ In c (alphabet mixed_rules k)) generated
    /\ (ascii_str (customized_beginning mixed_rules) ->
        ascii_str (customized_end mixed_rules) ->
        forall k, class_required mixed_rules k = true ->
                  exists c, In c password /\ In c (alphabet mixed_rules k))
    /\ Forall (fun c => In c (additional_chars mixed_rules)) generated
    /\ (forall c, In c (additional_chars mixed_rules)
                  <-> exists k, class_required mixed_rules k = true
                                /\ In c (alphabet mixed_rules k))
    /\ (len (customized_beginning mixed_rules ++ customized_end mixed_rules)
        + (get_nb_of_presence_rules mixed_rules
           - get_nb_of_rules_satisfied_by_string ascii_table mixed_rules
               (customized_beginning mixed_rules ++ customized_end mixed_rules))
        < max_number_of_chars mixed_rules ->
        forall c, In c (additional_chars mixed_rules) ->
                  exists (r' : randomness) (added rest : str),
                    run (generate ascii_table mixed_rules) r'
                    = inr (customized_beginning mixed_rules ++ (added ++ c :: rest)
                                                            ++ customized_end mixed_rules)
                    /\ len added
                       = get_nb_of_presence_rules mixed_rules
                         - get_nb_of_rules_satisfied_by_string ascii_table mixed_rules
                             (customized_beginning mixed_rules
                              ++ customized_end mixed_rules)).
Proof.
  apply (generate_covers_required_classes ascii_table mixed_rules (lit "")).
  - exact ascii_table_agrees.
  - reflexivity.
Defined.

(** C4, as stated, fails: with max = 3, the customized beginning "AB1" and
    the lower case, upper case and number rules, "AB1" holds no lower case
    letter and leaves no room for one; the rules are not consistent. *)
Lemma full_prefix_rules_inconsistent :
  ~ (check_rules_consistency ascii_table full_prefix_rules = (true, lit "")
     /\ run (generate ascii_table full_prefix_rules) [] = inr (lit "AB1")).
Proof. intros [H _]. discriminate H. Qed.

(** C4, amended.  For max = 3, the customized beginning "AB1" and the lower
    case, upper case and number rules, the validator answers that the
    presence rules cannot be satisfied with 'max_nb_of_chars' and the
    customized strings, and [generate] raises [PasswordRuleError] with that
    reason.  With the upper case and number rules only, which "AB1"
    satisfies, the rules are consistent and [generate] returns exactly
    "AB1". *)
Theorem full_prefix_rules_generate (U : unicode) (r : randomness) :
  agrees_on_ascii U ->
  check_rules_consistency U full_prefix_rules = (false, reason_presence_max)
  /\ run (generate U full_prefix_rules) r = inl (PasswordRuleError reason_presence_max)
  /\ check_rules_consistency U full_prefix_rules_upper_number = (true, lit "")
  /\ run (generate U full_prefix_rules_upper_number) r = inr (lit "AB1").
Proof.
  intros HU.
  assert (Hb : ascii_str (lit "AB1")) by (apply ascii_lit; reflexivity).
  assert (He : ascii_str []) by constructor.
  unfold run.
  rewrite (check_rules_consistency_ascii U HU full_prefix_rules Hb He),
    (check_rules_consistency_ascii U HU full_prefix_rules_upper_number Hb He),
    (generate_ascii U HU full_prefix_rules r Hb He),
    (generate_ascii U HU full_prefix_rules_upper_number r Hb He).
  repeat split.
Qed.

Lemma full_prefix_rules_generate_witness :
  check_rules_consistency ascii_table full_prefix_rules = (false, reason_presence_max)
  /\ run (generate ascii_table full_prefix_rules) [] = inl (PasswordRuleError reason_presence_max)
  /\ check_rules_consistency ascii_table full_prefix_rules_upper_number = (true, lit "")
  /\ run (generate ascii_table full_prefix_rules_upper_number) [] = inr (lit "AB1").
Proof.
  apply (full_prefix_rules_generate ascii_table []). exact ascii_table_agrees.
Defined.

(** C5, as stated, fails: with max = 2, the customized beginning "AB1" and
    no presence rule, the reason returned is not the one on the customized
    first chars. *)
Lemma long_prefix_rules_reason :
  check_rules_consistency ascii_table long_prefix_rules
  <> (false, reason_first_chars_too_long).
Proof. discriminate. Qed.

(** C5, amended.  For max = 2 and the customized beginning "AB1" with no
    presence rule selected, the validator answers that at least one presence
    rule must be selected.  On every rule set with a presence rule selected
    and a customized beginning longer than max, it answers that the number of
    customized first chars cannot be greater than 'max number of chars'. *)
Theorem first_chars_too_long (U : unicode) :
  check_rules_consistency U long_prefix_rules = (false, reason_no_presence_rule)
  /\ forall rules : PasswordRules,
       get_nb_of_presence_rules rules <> 0 ->
       length_of_customized_beginning rules > max_number_of_chars rules ->
       check_rules_consistency U rules = (false, reason_first_chars_too_long).
Proof.
  split; [reflexivity|].
  intros rules Hn Hlong. unfold check_rules_consistency.
  destruct (Z.eqb_spec (get_nb_of_presence_rules rules) 0) as [|_]; [contradiction|].
  pose proof (len_nonneg (customized_end rules)) as He.
  unfold length_of_customized_beginning, length_of_customized_end in *.
  destruct (Z.gtb_spec (len (customized_beginning rules) + len (customized_end rules))
              (max_number_of_chars rules)) as [_|]; [|lia].
  destruct (Z.gtb_spec (len (customized_beginning rules)) (max_number_of_chars rules)) as [_|];
    [reflexivity|lia].
Qed.

Lemma first_chars_too_long_witness :
  check_rules_consistency ascii_table
    {| min_number_of_chars := 1; max_number_of_chars := 2;
       allowed_special_characters := [];
       is_lower_case_required := false; is_upper_case_required := true;
       is_number_required := true; is_special_character_required := false;
       customized_beginning := lit "AB1"; customized_end := [] |}
  = (false, reason_first_chars_too_long).
Proof.
  apply (proj2 (first_chars_too_long ascii_table)).
  - discriminate.
  - reflexivity.
Defined.

(** C10.  When [check_rules_consistency] returns (False, reason), [generate]
    raises [PasswordRuleError] with exactly that reason, whatever the
    randomness source, and returns no password. *)
Theorem generate_raises_on_inconsistent_rules
        (U : unicode) (rules : PasswordRules) (reason : str) (r : randomness) :
  check_rules_consistency U rules = (false, reason) ->
  generate U rules r = inl (PasswordRuleError reason)
  /\ run (generate U rules) r = inl (PasswordRuleError reason).
Proof.
  intros H. unfold run, generate. rewrite H. split; reflexivity.
Qed.

Lemma generate_raises_on_inconsistent_rules_witness :
  generate ascii_table long_prefix_rules [4%nat]
  = inl (PasswordRuleError reason_no_presence_rule)
  /\ run (generate ascii_table long_prefix_rules) [4%nat]
     = inl (PasswordRuleError reason_no_presence_rule).
Proof.
  apply (generate_raises_on_inconsistent_rules ascii_table long_prefix_rules). reflexivity.
Defined.

(** *** The validator: verdicts and reasons *)

Lemma check_rules_consistency_passes (U : unicode) (rules : PasswordRules) :
  passes_checks U rules -> check_rules_consistency U rules = (true, lit "").
Proof.
  intros [Hn Hfit Hbeg Hend Hmm Hroom Hsp]. unfold check_rules_consistency.
  destruct (Z.eqb_spec (get_nb_of_presence_rules rules) 0) as [|_]; [contradiction|].
  destruct (Z.gtb_spec (length_of_customized_beginning rules + length_of_customized_end rules)
              (max_number_of_chars rules)) as [|_]; [lia|].
  unfold length_of_customized_beginning, length_of_customized_end in *.
  rewrite !len_pos_nonempty.
  assert (Eb : negb (match customized_beginning rules with [] => true | _ => false end)
               && negb (check_string_consistency U rules (customized_beginning rules)) = false).
  { destruct Hbeg as [->| ->]; [reflexivity|apply andb_false_r]. }
  assert (Ee : negb (match customized_end rules with [] => true | _ => false end)
               && negb (check_string_consistency U rules (customized_end rules)) = false).
  { destruct Hend as [->| ->]; [reflexivity|apply andb_false_r]. }
  rewrite Eb, Ee.
  destruct (Z.gtb_spec (min_number_of_chars rules) (max_number_of_chars rules)) as [|_]; [lia|].
  cbv zeta.
  assert (Es : is_special_character_required rules
               && match allowed_special_characters rules with [] => true | _ => false end
               = false).
  { destruct (is_special_character_required rules); [|reflexivity].
    destruct (allowed_special_characters rules); [|reflexivity].
    exfalso. apply Hsp; reflexivity. }
  rewrite Es.
  destruct (Z.gtb_spec (get_nb_of_presence_rules rules) (min_number_of_chars rules)) as [Hgt|];
    [|reflexivity].
  destruct (Hroom ltac:(lia)) as [Hcust Hle].
  assert (Ec : match customized_beginning rules with [] => true | _ => false end
               && match customized_end rules with [] => true | _ => false end = false).
  { destruct (customized_beginning rules); [|reflexivity].
    destruct (customized_end rules); [|reflexivity]. destruct Hcust; congruence. }
  rewrite Ec.
  destruct (Z.ltb_spec (get_nb_of_rules_satisfied_by_string U rules
                          (customized_beginning rules ++ customized_end rules))
              (get_nb_of_presence_rules rules)) as [_|]; [|reflexivity].
  destruct (Z.ltb_spec (max_number_of_chars rules
                        - len (customized_beginning rules ++ customized_end rules))
              (get_nb_of_presence_rules rules
               - get_nb_of_rules_satisfied_by_string U rules
                   (customized_beginning rules ++ customized_end rules))) as [|_]; [lia|].
  reflexivity.
Qed.

(** The validator accepts a rule set exactly when: a presence rule is
    selected; the customized strings fit in max; each non-empty customized
    string breaks no rule; min <= max; if the presence rules outnumber min,
    there is a customized string and the rules the customized strings leave
    unsatisfied fit in the room below max; and the special character rule
    comes with an allowed special character. *)
Theorem check_rules_consistency_iff (U : unicode) (rules : PasswordRules) :
  check_rules_consistency U rules = (true, lit "") <-> passes_checks U rules.
Proof.
  split.
  - intros H. exact (proj1 (check_rules_consistency_true U rules (lit "") H)).
  - apply check_rules_consistency_passes.
Qed.

(** The validator's answer is (True, "") or (False, reason) with one of
    the ten reasons; the ten reasons are non-empty and pairwise distinct, so
    the reason is empty exactly when the rules are consistent. *)
Theorem check_rules_consistency_verdict (U : unicode) (rules : PasswordRules) :
  let reasons :=
    [reason_no_presence_rule; reason_first_chars_too_long; reason_last_chars_too_long;
     reason_customized_too_long; reason_first_chars_inconsistent;
     reason_last_chars_inconsistent; reason_min_greater_than_max; reason_presence_min;
     reason_presence_max; reason_no_special_character] in
  NoDup reasons /\ ~ In (lit "") reasons
  /\ (check_rules_consistency U rules = (true, lit "")
      \/ exists reason, In reason reasons
                        /\ check_rules_consistency U rules = (false, reason)).
Proof.
  intros reasons. split; [|split].
  - unfold reasons.
    repeat (apply NoDup_cons;
            [intros H; cbn [In] in H;
             repeat (destruct H as [H|H]; [vm_compute in H; discriminate H|]); exact H|]).
    apply NoDup_nil.
  - intros H. cbn [In reasons] in H.
    repeat (destruct H as [H|H]; [vm_compute in H; discriminate H|]). exact H.
  - unfold check_rules_consistency, reasons.
    repeat match goal with
           | |- context [if ?b then _ else _] => destruct b
           end;
      cbv zeta;
      repeat match goal with
             | |- context [if ?b then _ else _] => destruct b
             end;
      first [left; reflexivity | right; eexists; split; [|reflexivity]; cbn [In]; tauto].
Qed.

(** The tests on the customized strings, as the validator writes them. *)
Lemma customized_string_test (U : unicode) (rules : PasswordRules) (s : str) :
  negb (match s with [] => true | _ => false end)
  && negb (check_string_consistency U rules s) = false
  <-> s = [] \/ check_string_consistency U rules s = true.
Proof.
  destruct s as [|c s]; cbn [negb andb].
  - split; auto.
  - destruct (check_string_consistency U rules (c :: s)); cbn; split; auto.
    intros [H|H]; congruence.
Qed.

Lemma no_customized_string_test (rules : PasswordRules) :
  match customized_beginning rules with [] => true | _ => false end
  && match customized_end rules with [] => true | _ => false end = true
  <-> customized_beginning rules = [] /\ customized_end rules = [].
Proof.
  destruct (customized_beginning rules), (customized_end rules); cbn; split;
    first [intros [? ?]; congruence | intros; split; congruence | auto].
Qed.

(** Once the first four checks pass, the validator's answer is decided by
    the remaining ones. *)
Lemma check_rules_consistency_after_strings (U : unicode) (rules : PasswordRules) :
  customized_strings_accepted U rules ->
  check_rules_consistency U rules
  = if min_number_of_chars rules >? max_number_of_chars rules
    then (false, reason_min_greater_than_max)
    else
      let special_character_check :=
        if is_special_character_required rules
           && (match allowed_special_characters rules with [] => true | _ => false end)
        then (false, reason_no_special_character)
        else (true, lit "") in
      if get_nb_of_presence_rules rules >? min_number_of_chars rules then
        if (match customized_beginning rules with [] => true | _ => false end)
           && (match customized_end rules with [] => true | _ => false end)
        then (false, reason_presence_min)
        else
          if get_nb_of_rules_satisfied_by_string U rules
               (customized_beginning rules ++ customized_end rules)
             <? get_nb_of_presence_rules rules then
            if max_number_of_chars rules
               - len (customized_beginning rules ++ customized_end rules)
               <? get_nb_of_presence_rules rules
                  - get_nb_of_rules_satisfied_by_string U rules
                      (customized_beginning rules ++ customized_end rules)
            then (false, reason_presence_max)
            else special_character_check
          else special_character_check
      else special_character_check.
Proof.
  intros (Hn & Hfit & Hb & He). unfold check_rules_consistency.
  destruct (Z.eqb_spec (get_nb_of_presence_rules rules) 0) as [|_]; [contradiction|].
  destruct (Z.gtb_spec (length_of_customized_beginning rules + length_of_customized_end rules)
              (max_number_of_chars rules)) as [|_]; [lia|].
  unfold length_of_customized_beginning, length_of_customized_end.
  rewrite !len_pos_nonempty.
  rewrite (proj2 (customized_string_test U rules _) Hb),
    (proj2 (customized_string_test U rules _) He).
  reflexivity.
Qed.

Lemma check_rules_consistency_reason_sound
      (U : unicode) (rules : PasswordRules) (reason : str) :
  check_rules_consistency U rules = (false, reason) -> failed_check U rules reason.
Proof.
  pose proof (len_app (customized_beginning rules) (customized_end rules)) as Hl.
  unfold check_rules_consistency.
  destruct (Z.eqb_spec (get_nb_of_presence_rules rules) 0) as [Hn|Hn].
  { intros [= <-]. apply fails_no_presence_rule, Hn. }
  destruct (Z.gtb_spec (length_of_customized_beginning rules + length_of_customized_end rules)
              (max_number_of_chars rules)) as [Hlong|Hfit].
  { destruct (Z.gtb_spec (length_of_customized_beginning rules) (max_number_of_chars rules)).
    { intros [= <-]. apply fails_first_chars_too_long; first [assumption | lia]. }
    destruct (Z.gtb_spec (length_of_customized_end rules) (max_number_of_chars rules)).
    { intros [= <-]. apply fails_last_chars_too_long; first [assumption | lia]. }
    intros [= <-]. apply fails_customized_too_long; first [assumption | lia]. }
  unfold length_of_customized_beginning at 1, length_of_customized_end at 1.
  rewrite !len_pos_nonempty.
  destruct (negb _ && negb (check_string_consistency U rules (customized_beginning rules)))
    eqn:Eb.
  { intros [= <-]. apply andb_prop in Eb. destruct Eb as [Eb1 Eb2].
    apply fails_first_chars_inconsistent; try first [assumption | lia].
    - intros E. rewrite E in Eb1. discriminate.
    - apply negb_true_iff, Eb2. }
  apply customized_string_test in Eb.
  destruct (negb _ && negb (check_string_consistency U rules (customized_end rules))) eqn:Ee.
  { intros [= <-]. apply andb_prop in Ee. destruct Ee as [Ee1 Ee2].
    apply fails_last_chars_inconsistent; try first [assumption | lia].
    - intros E. rewrite E in Ee1. discriminate.
    - apply negb_true_iff, Ee2. }
  apply customized_string_test in Ee.
  assert (Hacc : customized_strings_accepted U rules) by (repeat split; assumption).
  destruct (Z.gtb_spec (min_number_of_chars rules) (max_number_of_chars rules)) as [Hmm|Hmm].
  { intros [= <-]. apply fails_min_greater_than_max; first [assumption | lia]. }
  cbv zeta.
  assert (Hspecial :
    (get_nb_of_presence_rules rules > min_number_of_chars rules ->
     (customized_beginning rules <> [] \/ customized_end rules <> [])
     /\ get_nb_of_presence_rules rules
        - get_nb_of_rules_satisfied_by_string U rules
            (customized_beginning rules ++ customized_end rules)
        <= max_number_of_chars rules
           - len (customized_beginning rules ++ customized_end rules)) ->
    (if is_special_character_required rules
        && match allowed_special_characters rules with [] => true | _ :: _ => false end
     then (false, reason_no_special_character) else (true, lit "")) = (false, reason) ->
    failed_check U rules reason).
  { intros Hroom. destruct (is_special_character_required rules) eqn:Esp; [|discriminate].
    destruct (allowed_special_characters rules) eqn:Eal; [|discriminate].
    intros [= <-]. apply fails_no_special_character; first [assumption | lia]. }
  destruct (Z.gtb_spec (get_nb_of_presence_rules rules) (min_number_of_chars rules)) as [Hgt|Hle].
  - destruct (match customized_beginning rules with [] => true | _ => false end
              && match customized_end rules with [] => true | _ => false end) eqn:Ec.
    { apply no_customized_string_test in Ec. destruct Ec as [Ec1 Ec2].
      intros [= <-]. apply fails_presence_min; first [assumption | lia]. }
    assert (Hcust : customized_beginning rules <> [] \/ customized_end rules <> []).
    { destruct (customized_beginning rules); [|left; discriminate].
      destruct (customized_end rules); [discriminate|right; discriminate]. }
    destruct (Z.ltb_spec (get_nb_of_rules_satisfied_by_string U rules
                            (customized_beginning rules ++ customized_end rules))
                (get_nb_of_presence_rules rules)) as [Hlt|Hge].
    + destruct (Z.ltb_spec (max_number_of_chars rules
                            - len (customized_beginning rules ++ customized_end rules))
                  (get_nb_of_presence_rules rules
                   - get_nb_of_rules_satisfied_by_string U rules
                       (customized_beginning rules ++ customized_end rules))) as [Hno|Hroom].
      * intros [= <-]. apply fails_presence_max; first [assumption | lia].
      * apply Hspecial. intros _. split; [exact Hcust|lia].
    + apply Hspecial. intros _. split; [exact Hcust|].
      unfold length_of_customized_beginning, length_of_customized_end in Hfit. lia.
  - apply Hspecial. intros Hgt. lia.
Qed.

Lemma check_rules_consistency_reason_complete
      (U : unicode) (rules : PasswordRules) (reason : str) :
  failed_check U rules reason -> check_rules_consistency U rules = (false, reason).
Proof.
  pose proof (len_app (customized_beginning rules) (customized_end rules)) as Hl.
  pose proof (len_nonneg (customized_beginning rules)) as Hb0.
  pose proof (len_nonneg (customized_end rules)) as He0.
  pose proof (nb_satisfied_le U rules (customized_beginning rules ++ customized_end rules))
    as Hs.
  intros H. destruct H as
    [ Hn | Hn Hb | Hn Hb He | Hn Hb He Hbe | Hn Hfit Hbeg Hcb | Hn Hfit Hb Hend Hce
    | Hacc Hmm | Hacc Hmm Hgt Hbeg Hend | Hacc Hmm Hgt Hcust Hroom
    | Hacc Hmm Hroom Hsp Hal ].
  - unfold check_rules_consistency. rewrite (proj2 (Z.eqb_eq _ _) Hn). reflexivity.
  - unfold check_rules_consistency. rewrite (proj2 (Z.eqb_neq _ _) Hn).
    unfold length_of_customized_beginning, length_of_customized_end in *.
    destruct (Z.gtb_spec (len (customized_beginning rules) + len (customized_end rules))
                (max_number_of_chars rules)); [|lia].
    destruct (Z.gtb_spec (len (customized_beginning rules)) (max_number_of_chars rules));
      [reflexivity|lia].
  - unfold check_rules_consistency. rewrite (proj2 (Z.eqb_neq _ _) Hn).
    unfold length_of_customized_beginning, length_of_customized_end in *.
    destruct (Z.gtb_spec (len (customized_beginning rules) + len (customized_end rules))
                (max_number_of_chars rules)); [|lia].
    destruct (Z.gtb_spec (len (customized_beginning rules)) (max_number_of_chars rules)); [lia|].
    destruct (Z.gtb_spec (len (customized_end rules)) (max_number_of_chars rules));
      [reflexivity|lia].
  - unfold check_rules_consistency. rewrite (proj2 (Z.eqb_neq _ _) Hn).
    unfold length_of_customized_beginning, length_of_customized_end in *.
    destruct (Z.gtb_spec (len (customized_beginning rules) + len (customized_end rules))
                (max_number_of_chars rules)); [|lia].
    destruct (Z.gtb_spec (len (customized_beginning rules)) (max_number_of_chars rules)); [lia|].
    destruct (Z.gtb_spec (len (customized_end rules)) (max_number_of_chars rules));
      [lia|reflexivity].
  - unfold check_rules_consistency. rewrite (proj2 (Z.eqb_neq _ _) Hn).
    destruct (Z.gtb_spec (length_of_customized_beginning rules
                          + length_of_customized_end rules)
                (max_number_of_chars rules)); [lia|].
    unfold length_of_customized_beginning at 1. rewrite len_pos_nonempty, Hcb.
    destruct (customized_beginning rules); [congruence|reflexivity].
  - unfold check_rules_consistency. rewrite (proj2 (Z.eqb_neq _ _) Hn).
    destruct (Z.gtb_spec (length_of_customized_beginning rules
                          + length_of_customized_end rules)
                (max_number_of_chars rules)); [lia|].
    unfold length_of_customized_beginning at 1, length_of_customized_end at 1.
    rewrite !len_pos_nonempty, (proj2 (customized_string_test U rules _) Hb), Hce.
    destruct (customized_end rules); [congruence|reflexivity].
  - rewrite (check_rules_consistency_after_strings U rules Hacc).
    destruct (Z.gtb_spec (min_number_of_chars rules) (max_number_of_chars rules));
      [reflexivity|lia].
  - rewrite (check_rules_consistency_after_strings U rules Hacc).
    destruct (Z.gtb_spec (min_number_of_chars rules) (max_number_of_chars rules)); [lia|].
    cbv zeta.
    destruct (Z.gtb_spec (get_nb_of_presence_rules rules) (min_number_of_chars rules)); [|lia].
    rewrite Hbeg, Hend. reflexivity.
  - rewrite (check_rules_consistency_after_strings U rules Hacc).
    destruct (Z.gtb_spec (min_number_of_chars rules) (max_number_of_chars rules)); [lia|].
    cbv zeta.
    destruct (Z.gtb_spec (get_nb_of_presence_rules rules) (min_number_of_chars rules)); [|lia].
    assert (Ec : match customized_beginning rules with [] => true | _ => false end
                 && match customized_end rules with [] => true | _ => false end = false).
    { destruct (customized_beginning rules); [|reflexivity].
      destruct (customized_end rules); [|reflexivity]. destruct Hcust; congruence. }
    rewrite Ec.
    destruct Hacc as (_ & Hfit & _).
    unfold length_of_customized_beginning, length_of_customized_end in Hfit.
    destruct (Z.ltb_spec (get_nb_of_rules_satisfied_by_string U rules
                            (customized_beginning rules ++ customized_end rules))
                (get_nb_of_presence_rules rules)); [|lia].
    destruct (Z.ltb_spec (max_number_of_chars rules
                          - len (customized_beginning rules ++ customized_end rules))
                (get_nb_of_presence_rules rules
                 - get_nb_of_rules_satisfied_by_string U rules
                     (customized_beginning rules ++ customized_end rules)));
      [reflexivity|lia].
  - rewrite (check_rules_consistency_after_strings U rules Hacc).
    destruct (Z.gtb_spec (min_number_of_chars rules) (max_number_of_chars rules)); [lia|].
    cbv zeta. rewrite Hsp, Hal. cbn [andb].
    destruct (Z.gtb_spec (get_nb_of_presence_rules rules) (min_number_of_chars rules))
      as [Hgt|]; [|reflexivity].
    destruct (Hroom ltac:(lia)) as [Hcust Hle].
    assert (Ec : match customized_beginning rules with [] => true | _ => false end
                 && match customized_end rules with [] => true | _ => false end = false).
    { destruct (customized_beginning rules); [|reflexivity].
      destruct (customized_end rules); [|reflexivity]. destruct Hcust; congruence. }
    rewrite Ec.
    destruct (Z.ltb_spec (get_nb_of_rules_satisfied_by_string U rules
                            (customized_beginning rules ++ customized_end rules))
                (get_nb_of_presence_rules rules)); [|reflexivity].
    destruct (Z.ltb_spec (max_number_of_chars rules
                          - len (customized_beginning rules ++ customized_end rules))
                (get_nb_of_presence_rules rules
                 - get_nb_of_rules_satisfied_by_string U rules
                     (customized_beginning rules ++ customized_end rules)));
      [lia|reflexivity].
Qed.

(** The validator answers (False, reason) exactly when [reason] is the
    reason of the first check that fails, in the order: presence rule
    selected, customized strings within max (first chars, last chars,
    total), customized strings consistent (first, last), min <= max, presence
    rules satisfiable (by min without customized strings, by max with them),
    special characters provided. *)
Theorem check_rules_consistency_reason (U : unicode) (rules : PasswordRules) (reason : str) :
  check_rules_consistency U rules = (false, reason) <-> failed_check U rules reason.
Proof.
  split.
  - apply check_rules_consistency_reason_sound.
  - apply check_rules_consistency_reason_complete.
Qed.

(** *** [__check_string_consistency] and the rule counters *)

Lemma existsb_false {A} (f : A -> bool) (l : list A) :
  existsb f l = false <-> forall a, In a l -> f a = false.
Proof.
  induction l as [|a l IH]; cbn.
  - split; [intros _ a []|reflexivity].
  - rewrite orb_false_iff, IH. split.
    + intros [Ha Hl] b [<-|Hb]; auto.
    + intros H. split; [apply H; auto|intros b Hb; apply H; auto].
Qed.

Lemma guarded_class_test (flag : bool) (f : char -> bool) (s : str) :
  negb (negb flag && existsb f s) = true
  <-> forall c, In c s -> f c = true -> flag = true.
Proof.
  destruct flag; cbn [negb andb].
  - split; auto.
  - rewrite negb_true_iff, existsb_false. split.
    + intros H c Hc Hf. rewrite (H c Hc) in Hf. discriminate.
    + intros H c Hc. destruct (f c) eqn:E; [|reflexivity]. discriminate (H c Hc E).
Qed.

Lemma special_character_test (U : unicode) (rules : PasswordRules) (s : str) :
  negb (if negb (is_special_character_required rules)
        then existsb (fun c => negb (isdigit U c) && negb (isalpha U c)) s
        else existsb (fun c => negb (mem c (allowed_special_characters rules))
                               && negb (isdigit U c) && negb (isalpha U c)) s) = true
  <-> forall c, In c s -> isdigit U c = false -> isalpha U c = false ->
        is_special_character_required rules = true
        /\ mem c (allowed_special_characters rules) = true.
Proof.
  destruct (is_special_character_required rules); cbn [negb];
    rewrite negb_true_iff, existsb_false; split.
  - intros H c Hc Hd Ha. specialize (H c Hc). rewrite Hd, Ha in H. cbn in H.
    rewrite ?andb_true_r in H. apply negb_false_iff in H. auto.
  - intros H c Hc. specialize (H c Hc).
    destruct (isdigit U c), (isalpha U c); cbn; rewrite ?andb_false_r; try reflexivity.
    destruct (H eq_refl eq_refl) as [_ ->]. reflexivity.
  - intros H c Hc Hd Ha. specialize (H c Hc). rewrite Hd, Ha in H. discriminate H.
  - intros H c Hc. specialize (H c Hc).
    destruct (isdigit U c), (isalpha U c); cbn; try reflexivity.
    destruct (H eq_refl eq_refl) as [H' _]. discriminate H'.
Qed.

Lemma check_string_consistency_tests (U : unicode) (rules : PasswordRules) (s : str) :
  check_string_consistency U rules s
  = negb (negb (is_lower_case_required rules) && existsb (islower U) s)
    && negb (negb (is_upper_case_required rules) && existsb (isupper U) s)
    && negb (negb (is_number_required rules) && existsb (isdigit U) s)
    && negb (if negb (is_special_character_required rules)
             then existsb (fun c => negb (isdigit U c) && negb (isalpha U c)) s
             else existsb (fun c => negb (mem c (allowed_special_characters rules))
                                    && negb (isdigit U c) && negb (isalpha U c)) s).
Proof.
  unfold check_string_consistency.
  destruct (negb (is_lower_case_required rules) && existsb (islower U) s); [reflexivity|].
  destruct (negb (is_upper_case_required rules) && existsb (isupper U) s); [reflexivity|].
  destruct (negb (is_number_required rules) && existsb (isdigit U) s); [reflexivity|].
  destruct (negb (is_special_character_required rules)); cbn [negb andb].
  - destruct (existsb _ s); reflexivity.
  - destruct (existsb _ s); reflexivity.
Qed.

Lemma check_string_consistency_each_char (U : unicode) (rules : PasswordRules) (s : str) :
  check_string_consistency U rules s = true
  <-> forall c, In c s ->
        (islower U c = true -> is_lower_case_required rules = true)
        /\ (isupper U c = true -> is_upper_case_required rules = true)
        /\ (isdigit U c = true -> is_number_required rules = true)
        /\ (isdigit U c = false -> isalpha U c = false ->
            is_special_character_required rules = true
            /\ mem c (allowed_special_characters rules) = true).
Proof.
  rewrite check_string_consistency_tests, !andb_true_iff, !guarded_class_test,
    special_character_test.
  split.
  - intros (((H1 & H2) & H3) & H4) c Hc.
    split; [exact (H1 c Hc)|]. split; [exact (H2 c Hc)|]. split; [exact (H3 c Hc)|].
    exact (H4 c Hc).
  - intros H. split; [split; [split|]|]; intros c Hc;
      destruct (H c Hc) as (H1 & H2 & H3 & H4); assumption.
Qed.


Lemma check_string_consistency_concat (U : unicode) (rules : PasswordRules) (s t : str) :
  check_string_consistency U rules [] = true
  /\ check_string_consistency U rules (s ++ t)
     = check_string_consistency U rules s && check_string_consistency U rules t.
Proof.
  split.
  - apply check_string_consistency_each_char. intros c [].
  - apply eq_true_iff_eq. rewrite andb_true_iff, !check_string_consistency_each_char.
    split.
    + intros H. split; intros c Hc; apply H, in_or_app; auto.
    + intros [Hs Ht] c Hc. apply in_app_or in Hc. destruct Hc; auto.
Qed.

(** A customized string breaks no rule exactly when each of its
    characters is allowed by the rules: a lower case letter needs the lower
    case rule, an upper case letter the upper case rule, a digit the number
    rule, and a character that is neither a digit nor alphabetic needs the
    special character rule and must be one of the allowed special
    characters.  (An alphabetic character without case is always accepted.) *)
Theorem check_string_consistency_chars (U : unicode) (rules : PasswordRules) (s : str) :
  check_string_consistency U rules s = true
  <-> forall c, In c s ->
        (islower U c = true -> is_lower_case_required rules = true)
        /\ (isupper U c = true -> is_upper_case_required rules = true)
        /\ (isdigit U c = true -> is_number_required rules = true)
        /\ (isdigit U c = false -> isalpha U c = false ->
            is_special_character_required rules = true
            /\ mem c (allowed_special_characters rules) = true).
Proof. apply check_string_consistency_each_char. Qed.

(** The check of a concatenation is the conjunction of the checks of its
    parts, and the empty string breaks no rule: a customized beginning and a
    customized end are both accepted exactly when the string made of both
    is. *)
Theorem check_string_consistency_app (U : unicode) (rules : PasswordRules) (s t : str) :
  check_string_consistency U rules [] = true
  /\ check_string_consistency U rules (s ++ t)
     = check_string_consistency U rules s && check_string_consistency U rules t.
Proof. apply check_string_consistency_concat. Qed.

(** The number of rules a string satisfies lies between 0 and the number
    of selected rules, itself at most 4, and does not decrease when the
    string is extended on either side. *)
Theorem nb_of_rules_satisfied_monotone (U : unicode) (rules : PasswordRules) (s t : str) :
  0 <= get_nb_of_rules_satisfied_by_string U rules s
  /\ get_nb_of_rules_satisfied_by_string U rules s <= get_nb_of_presence_rules rules
  /\ get_nb_of_presence_rules rules <= 4
  /\ get_nb_of_rules_satisfied_by_string U rules s
     <= get_nb_of_rules_satisfied_by_string U rules (s ++ t)
  /\ get_nb_of_rules_satisfied_by_string U rules t
     <= get_nb_of_rules_satisfied_by_string U rules (s ++ t).
Proof.
  pose proof (nb_satisfied_le U rules s) as Hs.
  split; [lia|]. split; [lia|]. split.
  { unfold get_nb_of_presence_rules.
    destruct (is_lower_case_required rules), (is_upper_case_required rules),
      (is_number_required rules), (is_special_character_required rules); cbn; lia. }
  unfold get_nb_of_rules_satisfied_by_string, is_lower_case_rule_satisfied,
    is_upper_case_rule_satisfied, is_number_rule_satisfied,
    is_special_character_rule_satisfied.
  rewrite !existsb_app.
  destruct (is_lower_case_required rules), (is_upper_case_required rules),
    (is_number_required rules), (is_special_character_required rules); cbn [andb];
    repeat match goal with
           | |- context [existsb ?f ?l] =>
               let b := fresh "b" in
               generalize (existsb f l); intros b; destruct b
           end; cbn; lia.
Qed.

(** *** The generator *)

(** The loop that satisfies the rules serves the pending classes in the
    order lower case, upper case, number, special character. *)
Lemma satisfy_rules_order (self : PasswordRules) (n : nat) :
  forall (states states' : rules_states) (password password' : str) (r r' : randomness),
    count_pending states = n ->
    satisfy_rules n self states password r = inr ((states', password'), r') ->
    exists added,
      password' = password ++ added
      /\ Forall2 (fun k c => In c (alphabet self k))
           (filter (pending states) [Lower; Upper; Digit; Special]) added.
Proof.
  induction n as [|n IH]; intros states states' password password' r r' Hcount Hrun.
  - cbn in Hrun. injection Hrun as <- <- <-.
    exists []. rewrite app_nil_r. split; [reflexivity|].
    unfold count_pending in Hcount. cbn [filter].
    destruct (pending states Lower), (pending states Upper), (pending states Digit),
      (pending states Special); cbn in Hcount; try lia. constructor.
  - unfold count_pending, pending in *. cbn [state_of filter] in *. cbn [satisfy_rules] in Hrun.
    destruct (unsatisfied (lower_case states)) eqn:El.
    { unfold bind at 1 in Hrun.
      destruct (random_choice_In ascii_lowercase r lowercase_nonempty) as (c & r1 & Ec & Hc).
      rewrite Ec in Hrun.
      apply IH in Hrun.
      2:{ cbn [state_of lower_case upper_case number special_character].
          rewrite unsatisfied_mark. cbn in *. lia. }
      destruct Hrun as (added & -> & Hord).
      cbn [state_of lower_case upper_case number special_character filter] in Hord.
      rewrite unsatisfied_mark in Hord.
      exists (c :: added). rewrite <- app_assoc. split; [reflexivity|].
      constructor; [exact Hc|exact Hord]. }
    destruct (unsatisfied (upper_case states)) eqn:Eu.
    { unfold bind at 1 in Hrun.
      destruct (random_choice_In ascii_uppercase r uppercase_nonempty) as (c & r1 & Ec & Hc).
      rewrite Ec in Hrun.
      apply IH in Hrun.
      2:{ cbn [state_of lower_case upper_case number special_character].
          rewrite unsatisfied_mark, El. cbn in *. lia. }
      destruct Hrun as (added & -> & Hord).
      cbn [state_of lower_case upper_case number special_character filter] in Hord.
      rewrite unsatisfied_mark, El in Hord.
      exists (c :: added). rewrite <- app_assoc. split; [reflexivity|].
      constructor; [exact Hc|exact Hord]. }
    destruct (unsatisfied (number states)) eqn:En.
    { unfold bind at 1 in Hrun.
      destruct (random_randrange_spec 0 (9 + 1) r) as (d & r1 & Hd & Hrange); [lia|].
      unfold random_randint in Hrun. rewrite Hd in Hrun.
      destruct (str_of_digit d) as (c & Ec & Hc); [lia|]. rewrite Ec in Hrun.
      apply IH in Hrun.
      2:{ cbn [state_of lower_case upper_case number special_character].
          rewrite unsatisfied_mark, El, Eu. cbn in *. lia. }
      destruct Hrun as (added & -> & Hord).
      cbn [state_of lower_case upper_case number special_character filter] in Hord.
      rewrite unsatisfied_mark, El, Eu in Hord.
      exists (c :: added). rewrite <- app_assoc. split; [reflexivity|].
      constructor; [exact Hc|exact Hord]. }
    destruct (unsatisfied (special_character states)) eqn:Es.
    { unfold bind at 1 in Hrun.
      destruct (allowed_special_characters self) as [|a0 allowed] eqn:Eal;
        [discriminate Hrun|].
      destruct (random_choice_In (a0 :: allowed) r ltac:(discriminate)) as (c & r1 & Ec & Hc).
      rewrite Ec in Hrun.
      apply IH in Hrun.
      2:{ cbn [state_of lower_case upper_case number special_character].
          rewrite unsatisfied_mark, El, Eu, En. cbn in *. lia. }
      destruct Hrun as (added & -> & Hord).
      cbn [state_of lower_case upper_case number special_character filter] in Hord.
      rewrite unsatisfied_mark, El, Eu, En in Hord.
      exists (c :: added). rewrite <- app_assoc. split; [reflexivity|].
      constructor; [cbn [alphabet]; rewrite Eal; exact Hc|exact Hord]. }
    cbn in Hcount. lia.
Qed.

(** On consistent rules, right after the customized beginning come the
    characters that satisfy the required classes the customized strings do
    not satisfy: one per class, in the order lower case, upper case, number,
    special character, each drawn from the alphabet of its class. *)
Theorem generate_serves_classes_in_order
        (U : unicode) (rules : PasswordRules) (reason : str) (r : randomness) :
  check_rules_consistency U rules = (true, reason) ->
  let customized := customized_beginning rules ++ customized_end rules in
  exists added fill,
    run (generate U rules) r
    = inr (customized_beginning rules ++ added ++ fill ++ customized_end rules)
    /\ Forall2 (fun k c => In c (alphabet rules k))
         (filter (fun k => class_required rules k && negb (rule_satisfied U rules k customized))
            [Lower; Upper; Digit; Special])
         added.
Proof.
  intros Hc customized.
  destruct (generate_shape_run U rules reason r Hc)
    as (added & fill & r' & Hrun & _ & _ & _ & _ & _ & _ & st' & r1 & Hsat).
  exists added, fill. unfold run. rewrite Hrun. split; [reflexivity|].
  pose proof (initial_states_spec U rules) as Hi. cbv zeta in Hi.
  destruct (initial_states U rules) as [states u]. destruct Hi as (_ & Hcount & Hpend).
  cbn [fst snd] in Hsat.
  apply satisfy_rules_order in Hsat; [|lia].
  destruct Hsat as (added' & E & Hord). apply app_inv_head in E. subst added'.
  fold customized in Hpend.
  cbn [filter] in Hord |- *. rewrite !Hpend in Hord. exact Hord.
Qed.

Lemma generate_serves_classes_in_order_witness :
  exists added fill,
    run (generate ascii_table mixed_rules) [5; 7; 3; 1; 2; 70; 33]%nat
    = inr (customized_beginning mixed_rules ++ added ++ fill ++ customized_end mixed_rules)
    /\ Forall2 (fun k c => In c (alphabet mixed_rules k)) [Upper; Digit] added.
Proof.
  apply (generate_serves_classes_in_order ascii_table mixed_rules (lit "")). reflexivity.
Defined.

(** On consistent rules the password returned starts with the customized
    beginning and ends with the customized end. *)
Theorem generate_keeps_customized_strings
        (U : unicode) (rules : PasswordRules) (reason : str) (r : randomness) :
  check_rules_consistency U rules = (true, reason) ->
  exists password,
    run (generate U rules) r = inr password
    /\ firstn (List.length (customized_beginning rules)) password = customized_beginning rules
    /\ skipn (List.length password - List.length (customized_end rules)) password
       = customized_end rules.
Proof.
  intros Hc.
  destruct (generate_shape U rules reason r Hc) as (added & fill & r' & Hrun & _).
  eexists. unfold run. rewrite Hrun. split; [reflexivity|]. split.
  - rewrite firstn_app, Nat.sub_diag, firstn_all. cbn [firstn]. apply app_nil_r.
  - rewrite !app_assoc.
    rewrite length_app, Nat.add_sub, skipn_app, Nat.sub_diag, skipn_all. reflexivity.
Qed.

Lemma generate_keeps_customized_strings_witness :
  exists password,
    run (generate ascii_table mixed_rules) [5; 7; 3; 1; 2; 70; 33]%nat = inr password
    /\ firstn 1 password = lit "x"
    /\ skipn (List.length password - 1) password = lit "#".
Proof.
  apply (generate_keeps_customized_strings ascii_table mixed_rules (lit "")). reflexivity.
Defined.

(** On consistent rules the password has at least min characters; it has
    at most max characters exactly when the required classes the customized
    strings leave unsatisfied fit in the room the customized strings leave
    below max, which is the case whenever there is no customized string or
    the presence rules outnumber min. *)
Theorem generate_length
        (U : unicode) (rules : PasswordRules) (reason : str) (r : randomness) :
  check_rules_consistency U rules = (true, reason) ->
  let room := max_number_of_chars rules
              - length_of_customized_beginning rules - length_of_customized_end rules in
  let unsatisfied_rules :=
    get_nb_of_presence_rules rules
    - get_nb_of_rules_satisfied_by_string U rules
        (customized_beginning rules ++ customized_end rules) in
  exists password,
    run (generate U rules) r = inr password
    /\ min_number_of_chars rules <= len password
    /\ (len password <= max_number_of_chars rules <-> unsatisfied_rules <= room)
    /\ (room < unsatisfied_rules ->
        len password
        = length_of_customized_beginning rules + unsatisfied_rules
          + length_of_customized_end rules)
    /\ ((customized_beginning rules = [] /\ customized_end rules = [])
        \/ get_nb_of_presence_rules rules > min_number_of_chars rules ->
        unsatisfied_rules <= room).
Proof.
  intros Hc room unsatisfied_rules.
  destruct (check_rules_consistency_true U rules reason Hc) as [Hp _].
  destruct (generate_shape U rules reason r Hc)
    as (added & fill & r' & Hrun & Hla & _ & _ & Hmin & Hmax & Hfull).
  pose proof (len_app (customized_beginning rules) (customized_end rules)) as Hl.
  pose proof (len_nonneg fill) as Hf.
  pose proof (nb_satisfied_le U rules (customized_beginning rules ++ customized_end rules))
    as Hs.
  eexists. unfold run. rewrite Hrun. split; [reflexivity|].
  rewrite !len_app.
  unfold room, unsatisfied_rules, length_of_customized_beginning, length_of_customized_end.
  split; [lia|]. split; [|split].
  - split; intros H.
    + lia.
    + lia.
  - intros H. rewrite Hfull by lia. unfold len in *. cbn [List.length]. lia.
  - intros [[Hb He]|Hgt].
    + pose proof (min_le_max U rules Hp) as Hmm.
      destruct (Z_gt_dec (get_nb_of_presence_rules rules) (min_number_of_chars rules))
        as [Hgt|Hle].
      * destruct (presence_fit U rules Hp Hgt) as [[Hne|Hne] _]; congruence.
      * rewrite Hb, He in *. unfold len in *. cbn [List.length app] in *. lia.
    + destruct (presence_fit U rules Hp Hgt) as [_ Hroom]. lia.
Qed.

Lemma generate_length_witness :
  exists password,
    run (generate ascii_table password8_rules) [3%nat] = inr password
    /\ 8 <= len password
    /\ (len password <= 8 <-> 1 <= 0)
    /\ (0 < 1 -> len password = 8 + 1 + 0)
    /\ ((lit "password" = [] /\ @nil char = [])
        \/ 2 > 8 -> 1 <= 0).
Proof.
  apply (generate_length ascii_table password8_rules (lit "")). reflexivity.
Defined.

(** [generate] returns a password exactly when the rules are consistent;
    otherwise it raises [PasswordRuleError]: it never fails on an empty
    sequence or range of the random generator. *)
Theorem generate_returns_iff_consistent
        (U : unicode) (rules : PasswordRules) (r : randomness) :
  ((exists password, run (generate U rules) r = inr password)
   <-> check_rules_consistency U rules = (true, lit ""))
  /\ run (generate U rules) r <> inl IndexError
  /\ run (generate U rules) r <> inl ValueError.
Proof.
  destruct (check_rules_consistency U rules) as [[|] reason] eqn:Hc.
  - destruct (check_rules_consistency_true U rules reason Hc) as [_ ->].
    destruct (generate_shape U rules (lit "") r Hc) as (added & fill & r' & Hrun & _).
    unfold run. rewrite Hrun. split; [|split; discriminate].
    split; [reflexivity|]. intros _. eexists. reflexivity.
  - unfold run, generate. rewrite Hc. cbn [negb raise]. split; [|split; discriminate].
    split; [intros [password H]; discriminate H|discriminate].
Qed.

(** When the customized strings fill max and satisfy every selected rule,
    the password is the customized beginning followed by the customized end,
    whatever the random generator delivers. *)
Theorem generate_customized_strings_only
        (U : unicode) (rules : PasswordRules) (reason : str) (r : randomness) :
  check_rules_consistency U rules = (true, reason) ->
  get_nb_of_rules_satisfied_by_string U rules
    (customized_beginning rules ++ customized_end rules)
  = get_nb_of_presence_rules rules ->
  length_of_customized_beginning rules + length_of_customized_end rules
  = max_number_of_chars rules ->
  run (generate U rules) r = inr (customized_beginning rules ++ customized_end rules).
Proof.
  intros Hc Hall Hfill.
  destruct (generate_shape U rules reason r Hc)
    as (added & fill & r' & Hrun & Hla & _ & _ & _ & _ & Hfull).
  pose proof (len_app (customized_beginning rules) (customized_end rules)) as Hl.
  unfold length_of_customized_beginning, length_of_customized_end in Hfill.
  assert (added = []) as ->.
  { destruct added; [reflexivity|]. unfold len in Hla. cbn [List.length] in Hla. lia. }
  rewrite Hfull in Hrun by (unfold len in *; cbn [List.length] in *; lia).
  unfold run. rewrite Hrun. reflexivity.
Qed.

Lemma generate_customized_strings_only_witness :
  run (generate ascii_table full_prefix_rules_upper_number) [9%nat] = inr (lit "AB1").
Proof.
  apply (generate_customized_strings_only ascii_table full_prefix_rules_upper_number (lit ""));
    reflexivity.
Defined.

(** The classes of the characters of a-z, A-Z and 0-9. *)
Lemma alphabet_classes (U : unicode) (c : char) :
  agrees_on_ascii U ->
  (In c ascii_lowercase ->
   islower U c = true /\ isupper U c = false /\ isdigit U c = false /\ isalpha U c = true)
  /\ (In c ascii_uppercase ->
      islower U c = false /\ isupper U c = true /\ isdigit U c = false /\ isalpha U c = true)
  /\ (In c digits ->
      islower U c = false /\ isupper U c = false /\ isdigit U c = true).
Proof.
  intros HU.
  assert (H : forall l : list char,
             forallb (fun c => N.ltb c 128) l = true -> In c l -> (c < 128)%N).
  { intros l Hl Hc. apply N.ltb_lt. exact (proj1 (forallb_forall _ _) Hl c Hc). }
  split; [|split]; intros Hin.
  - destruct (HU c (H ascii_lowercase eq_refl Hin)) as (-> & -> & -> & ->).
    cbn in Hin. repeat (destruct Hin as [<-|Hin]; [repeat split|]). contradiction.
  - destruct (HU c (H ascii_uppercase eq_refl Hin)) as (-> & -> & -> & ->).
    cbn in Hin. repeat (destruct Hin as [<-|Hin]; [repeat split|]). contradiction.
  - destruct (HU c (H digits eq_refl Hin)) as (-> & -> & -> & _).
    cbn in Hin. repeat (destruct Hin as [<-|Hin]; [repeat split|]). contradiction.
Qed.

(** On consistent rules whose allowed special characters are neither
    letters with case nor digits, the whole password returned passes the test
    the validator applies to customized strings: it breaks no rule. *)
Theorem generated_password_breaks_no_rule
        (U : unicode) (rules : PasswordRules) (reason : str) (r : randomness) :
  agrees_on_ascii U ->
  check_rules_consistency U rules = (true, reason) ->
  (forall c, In c (allowed_special_characters rules) ->
             islower U c = false /\ isupper U c = false /\ isdigit U c = false) ->
  exists password,
    run (generate U rules) r = inr password
    /\ check_string_consistency U rules password = true.
Proof.
  intros HU Hc Hal.
  destruct (check_rules_consistency_true U rules reason Hc) as [Hp _].
  destruct (generate_shape U rules reason r Hc) as (added & fill & r' & Hrun & _ & Hall & _).
  eexists. unfold run. rewrite Hrun. split; [reflexivity|].
  rewrite (app_assoc added fill).
  rewrite (proj2 (check_string_consistency_concat U rules (customized_beginning rules) _)),
    (proj2 (check_string_consistency_concat U rules (added ++ fill) _)), !andb_true_iff.
  split; [|split].
  - destruct (beginning_ok U rules Hp) as [-> | H]; [|exact H].
    apply check_string_consistency_concat; exact [].
  - apply check_string_consistency_each_char. intros c Hin.
    destruct (proj1 (Forall_forall _ _) Hall c Hin) as (k & Hk & Ha).
    destruct (alphabet_classes U c HU) as (Hlow & Hup & Hdig).
    destruct k; cbn [class_required alphabet] in Hk, Ha.
    + destruct (Hlow Ha) as (E1 & E2 & E3 & E4). rewrite E1, E2, E3, E4.
      repeat split; congruence.
    + destruct (Hup Ha) as (E1 & E2 & E3 & E4). rewrite E1, E2, E3, E4.
      repeat split; congruence.
    + destruct (Hdig Ha) as (E1 & E2 & E3). rewrite E1, E2, E3.
      repeat split; congruence.
    + destruct (Hal c Ha) as (E1 & E2 & E3). rewrite E1, E2, E3.
      split; [discriminate|]. split; [discriminate|]. split; [discriminate|].
      intros _ _. split; [exact Hk|].
      unfold mem. apply existsb_exists. exists c. split; [exact Ha|apply N.eqb_refl].
  - destruct (end_ok U rules Hp) as [-> | H]; [|exact H].
    apply check_string_consistency_concat; exact [].
Qed.

Lemma generated_password_breaks_no_rule_witness :
  exists password,
    run (generate ascii_table mixed_rules) [5; 7; 3; 1; 2; 70; 33]%nat = inr password
    /\ check_string_consistency ascii_table mixed_rules password = true.
Proof.
  apply (generated_password_breaks_no_rule ascii_table mixed_rules (lit "")).
  - exact ascii_table_agrees.
  - reflexivity.
  - intros c Hc. cbn in Hc. repeat (destruct Hc as [<-|Hc]; [repeat split|]). contradiction.
Defined.

(** Raising 'max number of chars' alone never makes consistent rules
    inconsistent. *)
Theorem consistent_with_larger_max
        (U : unicode) (rules : PasswordRules) (reason : str) (larger_max : Z) :
  check_rules_consistency U rules = (true, reason) ->
  max_number_of_chars rules <= larger_max ->
  check_rules_consistency U
    {| min_number_of_chars := min_number_of_chars rules;
       max_number_of_chars := larger_max;
       allowed_special_characters := allowed_special_characters rules;
       is_lower_case_required := is_lower_case_required rules;
       is_upper_case_required := is_upper_case_required rules;
       is_number_required := is_number_required rules;
       is_special_character_required := is_special_character_required rules;
       customized_beginning := customized_beginning rules;
       customized_end := customized_end rules |}
  = (true, lit "").
Proof.
  intros Hc Hmax.
  destruct (check_rules_consistency_true U rules reason Hc) as [[Hn Hfit Hb He Hmm Hroom Hsp] _].
  apply check_rules_consistency_passes.
  constructor.
  - exact Hn.
  - apply (Z.le_trans _ _ _ Hfit). exact Hmax.
  - exact Hb.
  - exact He.
  - apply (Z.le_trans _ _ _ Hmm). exact Hmax.
  - intros Hgt. destruct (Hroom Hgt) as [Hcust Hle]. split; [exact Hcust|].
    apply (Z.le_trans _ _ _ Hle).
    cbn [max_number_of_chars customized_beginning customized_end]. lia.
  - exact Hsp.
Qed.

Lemma consistent_with_larger_max_witness :
  check_rules_consistency ascii_table
    {| min_number_of_chars := 8; max_number_of_chars := 20;
       allowed_special_characters := lit "#!";
       is_lower_case_required := true; is_upper_case_required := true;
       is_number_required := true; is_special_character_required := true;
       customized_beginning := lit "x"; customized_end := lit "#" |}
  = (true, lit "").
Proof.
  apply (consistent_with_larger_max ascii_table mixed_rules (lit "") 20).
  - reflexivity.
  - cbn. lia.
Defined.

End GeneratorProofs.

(** ** Properties of password_checker.py *)

Module CheckerProofs.

Import Checker.

Lemma hex_digit_upper (x : Z) : In (hex_digit x) (lit "0123456789abcdef").
Proof.
  unfold hex_digit.
  assert (H : 0 <= Z.land x 0xF < 16).
  { change 0xF with (Z.ones 4). rewrite Z.land_ones by lia. apply Z.mod_pos_bound. lia. }
  set (d := Z.land x 0xF) in *. clearbody d.
  assert (E : d = 0 \/ d = 1 \/ d = 2 \/ d = 3 \/ d = 4 \/ d = 5 \/ d = 6 \/ d = 7 \/ d = 8
              \/ d = 9 \/ d = 10 \/ d = 11 \/ d = 12 \/ d = 13 \/ d = 14 \/ d = 15) by lia.
  repeat (destruct E as [E|E]); subst d; vm_compute; tauto.
Qed.

Lemma upper_hex (c : char) :
  In c (lit "0123456789abcdef") ->
  In (if between 97 122 c then (c - 32)%N else c) hex_upper_digits.
Proof.
  intros H. vm_compute in H.
  repeat (destruct H as [H|H]; [subst c; vm_compute; tauto|]). contradiction.
Qed.

Lemma hex_word_spec (w : Z) :
  List.length (hex_word w) = 8%nat
  /\ Forall (fun c => In c (lit "0123456789abcdef")) (hex_word w).
Proof.
  unfold hex_word. cbn [map List.length]. split; [reflexivity|].
  repeat (apply Forall_cons; [apply hex_digit_upper|]). apply Forall_nil.
Qed.

Lemma digest_spec (bytes : list Z) :
  let sha1_pwd := upper (hexdigest (sha1 bytes)) in
  List.length sha1_pwd = 40%nat /\ Forall (fun c => In c hex_upper_digits) sha1_pwd.
Proof.
  cbv zeta. destruct (sha1 bytes) as [[[[h0 h1] h2] h3] h4].
  unfold hexdigest, upper. split.
  - rewrite length_map, !length_app.
    rewrite !(proj1 (hex_word_spec _)). reflexivity.
  - rewrite Forall_map, !Forall_app.
    repeat split;
      (eapply Forall_impl; [|apply (proj2 (hex_word_spec _))]; intros c; apply upper_hex).
Qed.

Lemma tail_not_in_request (digest : str) :
  List.length digest = 40%nat ->
  Forall (fun c => In c hex_upper_digits) digest ->
  ~ occurs_in (skipn 5 digest) (api_range_url ++ firstn 5 digest).
Proof.
  intros Hlen Hhex (before & after & E).
  assert (Ht : List.length (skipn 5 digest) = 35%nat) by (rewrite length_skipn; lia).
  assert (Hu : List.length (api_range_url ++ firstn 5 digest) = 42%nat).
  { rewrite length_app, length_firstn, Hlen. reflexivity. }
  assert (Hb : (List.length before <= 7)%nat).
  { rewrite E, !length_app, Ht in Hu. lia. }
  assert (H7 : nth 7 (api_range_url ++ firstn 5 digest) 0%N = 47%N).
  { rewrite app_nth1 by (vm_compute; lia). reflexivity. }
  rewrite E in H7.
  rewrite app_nth2 in H7 by lia. rewrite app_nth1 in H7 by lia.
  assert (Hin : In (nth (7 - List.length before) (skipn 5 digest) 0%N) (skipn 5 digest))
    by (apply nth_In; lia).
  rewrite H7 in Hin.
  assert (Hslash : In 47%N hex_upper_digits).
  { rewrite Forall_forall in Hhex. apply Hhex.
    rewrite <- (firstn_skipn 5 digest). apply in_or_app. right. exact Hin. }
  vm_compute in Hslash. repeat (destruct Hslash as [Hslash|Hslash]; [discriminate|]). contradiction.
Qed.

Section Check.
Variable server : remote.

Lemma pwned_api_check_log (pwd : str) (bytes : list Z) (log : list str) :
  encode_utf8 pwd = Some bytes ->
  snd (pwned_api_check server pwd log)
  = log ++ [api_range_url ++ firstn 5 (upper (hexdigest (sha1 bytes)))].
Proof.
  intros E. unfold pwned_api_check. rewrite E. cbv zeta.
  unfold try_except_RuntimeError_else, request_api_data, bind, requests_get.
  destruct (server log _) as [response|]; [|reflexivity].
  destruct (negb (status_code response =? 200)).
  - reflexivity.
  - unfold ret, get_pwd_leaks_count.
    generalize (map (split colon) (splitlines (text response))). intros records.
    induction records as [|rec records IH]; [reflexivity|].
    cbn [scan_hashes]. destruct rec as [|t [|c [|x rest]]]; try reflexivity.
    destruct (str_eqb t _); [reflexivity|exact IH].
Qed.

Lemma check_log (self : PasswordChecker) (bytes : list Z) (log : list str) :
  password self <> [] ->
  encode_utf8 (password self) = Some bytes ->
  snd (check server self log)
  = log ++ [api_range_url ++ firstn 5 (upper (hexdigest (sha1 bytes)))].
Proof.
  intros Hne E. unfold check. destruct (password self) as [|c0 pwd] eqn:Ep; [congruence|].
  unfold bind. pose proof (pwned_api_check_log (c0 :: pwd) bytes log E) as H.
  destruct (pwned_api_check server (c0 :: pwd) log) as [[e|count] log']; cbn [snd] in H.
  - exact H.
  - destruct (truthy count); exact H.
Qed.
End Check.

Import Scenarios.

(** C6.  A check of a non-empty password that has a UTF-8 encoding sends
    exactly one request, to the range URL followed by the first 5
    characters of the upper case SHA-1 digest, 5 hexadecimal digits: the
    request is a function of that prefix alone, so two passwords with the
    same prefix send the same request whatever the service and the display
    option; the 35-character tail does not occur in it. *)
Theorem check_request_is_hash_prefix
        (server server' : remote) (self self' : PasswordChecker) (bytes bytes' : list Z) :
  password self <> [] -> encode_utf8 (password self) = Some bytes ->
  password self' <> [] -> encode_utf8 (password self') = Some bytes' ->
  let sha1_pwd := upper (hexdigest (sha1 bytes)) in
  let sha1_pwd' := upper (hexdigest (sha1 bytes')) in
  snd (check server self []) = [api_range_url ++ firstn 5 sha1_pwd]
  /\ List.length (firstn 5 sha1_pwd) = 5%nat
  /\ Forall (fun c => In c hex_upper_digits) (firstn 5 sha1_pwd)
  /\ List.length (skipn 5 sha1_pwd) = 35%nat
  /\ ~ occurs_in (skipn 5 sha1_pwd) (api_range_url ++ firstn 5 sha1_pwd)
  /\ (firstn 5 sha1_pwd = firstn 5 sha1_pwd' ->
      snd (check server self []) = snd (check server' self' [])).
Proof.
  intros Hne He Hne' He' sha1_pwd sha1_pwd'.
  destruct (digest_spec bytes) as [Hlen Hhex]. fold sha1_pwd in Hlen, Hhex.
  rewrite (check_log server self bytes [] Hne He), (check_log server' self' bytes' [] Hne' He').
  fold sha1_pwd sha1_pwd'. cbn [app].
  split; [reflexivity|].
  split; [rewrite length_firstn; lia|].
  split.
  { rewrite <- (firstn_skipn 5 sha1_pwd) in Hhex. apply Forall_app in Hhex. apply Hhex. }
  split; [rewrite length_skipn; lia|].
  split; [exact (tail_not_in_request sha1_pwd Hlen Hhex)|].
  intros ->. reflexivity.
Qed.

Lemma check_request_is_hash_prefix_witness :
  snd (check (always canned_response) (checker_of "password" true) [])
  = [lit "https://api.pwnedpasswords.com/range/5BAA6"].
Proof.
  refine (proj1 (check_request_is_hash_prefix
                   (always canned_response) (always server_error)
                   (checker_of "password" true) (checker_of "password" false)
                   [112; 97; 115; 115; 119; 111; 114; 100]
                   [112; 97; 115; 115; 119; 111; 114; 100] _ _ _ _)).
  - discriminate.
  - reflexivity.
  - discriminate.
  - reflexivity.
Defined.

(** C6, counterexamples.  The password made of the lone surrogate U+D800
    is not empty, yet its check sends no request: [encode] raises
    [UnicodeEncodeError] before the request is built.  And the password
    [api] occurs in the one request its check sends, which is to
    [https://api.pwnedpasswords.com/range/A033A]. *)
Lemma check_request_not_for_every_password :
  (password {| password := [55296%N]; has_to_be_hidden := true |} <> []
   /\ check (always canned_response) {| password := [55296%N]; has_to_be_hidden := true |} []
      = (inl UnicodeEncodeError, []))
  /\ (snd (check (always canned_response) (checker_of "api" true) [])
      = [lit "https://api.pwnedpasswords.com/range/" ++ lit "A033A"]
      /\ occurs_in (password (checker_of "api" true))
                   (lit "https://api.pwnedpasswords.com/range/" ++ lit "A033A")).
Proof.
  split; [split; [discriminate|reflexivity]|].
  split; [vm_compute; reflexivity|].
  exists (lit "https://"), (lit ".pwnedpasswords.com/range/" ++ lit "A033A"). reflexivity.
Defined.

(** C7.  When the service answers a check of a non-empty password with a
    status other than 200, [check] sends that single request and returns
    normally: its result is the sentence saying that the password has already
    been exposed, with the failure message of [__pwned_api_check] where the
    number of exposures is expected. *)
Theorem check_on_error_status
        (server : remote) (self : PasswordChecker) (bytes : list Z) (response : Response) :
  password self <> [] -> encode_utf8 (password self) = Some bytes ->
  let url := api_range_url ++ firstn 5 (upper (hexdigest (sha1 bytes))) in
  server [] url = Some response ->
  status_code response <> 200 ->
  check server self []
  = (inr ((if negb (has_to_be_hidden self) then password self else lit "This password")
          ++ lit " has already been exposed in data breaches ("
          ++ (lit "Failed to get the information ("
              ++ (lit "Error fetching : response status code = "
                  ++ str_of_int (status_code response)
                  ++ lit ", check the API and try again")
              ++ lit ")")
          ++ lit " times) : you should probably change it !!"),
     [url]).
Proof.
  intros Hne He url Hs Hstatus.
  unfold check. destruct (password self) as [|c0 pwd] eqn:Ep; [congruence|].
  unfold bind, pwned_api_check. rewrite He. cbv zeta. fold url.
  unfold try_except_RuntimeError_else, request_api_data, bind, requests_get.
  rewrite Hs.
  destruct (Z.eqb_spec (status_code response) 200) as [|_]; [contradiction|].
  reflexivity.
Qed.

Lemma check_on_error_status_witness :
  check (always server_error) (checker_of "password" true) []
  = (inr (lit "This password has already been exposed in data breaches (Failed to get the information (Error fetching : response status code = 500, check the API and try again) times) : you should probably change it !!"),
     [lit "https://api.pwnedpasswords.com/range/5BAA6"]).
Proof.
  refine (check_on_error_status (always server_error) (checker_of "password" true)
            [112; 97; 115; 115; 119; 111; 114; 100] server_error _ _ _ _).
  - discriminate.
  - reflexivity.
  - reflexivity.
  - discriminate.
Defined.

Lemma str_eqb_eq (s t : str) : str_eqb s t = true <-> s = t.
Proof.
  revert t. induction s as [|c s IH]; intros [|d t]; cbn; split; try congruence; try reflexivity.
  - intros H. apply andb_prop in H. destruct H as [Hc Hs].
    apply N.eqb_eq in Hc. apply IH in Hs. congruence.
  - intros [= -> ->]. rewrite N.eqb_refl. cbn. apply IH. reflexivity.
Qed.

Lemma scan_hashes_spec (records : list (list str)) (hashed_pwd_tail : str) (log : list str) :
  (Forall (fun fields => exists tail count, fields = [tail; count] /\ tail <> hashed_pwd_tail)
     records ->
   scan_hashes records hashed_pwd_tail log = (inr (Int 0), log))
  /\ (forall before count after,
        records = before ++ [hashed_pwd_tail; count] :: after ->
        Forall (fun fields => exists tail count, fields = [tail; count]
                                                 /\ tail <> hashed_pwd_tail) before ->
        scan_hashes records hashed_pwd_tail log = (inr (Str count), log)).
Proof.
  split.
  - induction 1 as [|fields records (t & c & -> & Hne) _ IH]; [reflexivity|].
    cbn [scan_hashes]. destruct (str_eqb t hashed_pwd_tail) eqn:E.
    + apply str_eqb_eq in E. contradiction.
    + exact IH.
  - intros before count after -> Hbefore.
    induction Hbefore as [|fields before (t & c & -> & Hne) _ IH].
    + cbn [app scan_hashes]. rewrite (proj2 (str_eqb_eq _ _) eq_refl). reflexivity.
    + cbn [app scan_hashes]. destruct (str_eqb t hashed_pwd_tail) eqn:E.
      * apply str_eqb_eq in E. contradiction.
      * exact IH.
Qed.

(** C8, as stated, fails: a record whose tail is that of the password in
    lower case matches under case-insensitive comparison, but the lookup
    compares with [==] and returns 0. *)
Lemma lowercase_tail_not_matched :
  same_hex_ignoring_case (lit "1e4c9b93f3f0682250b6cf8331b7ee68fd8") password_tail
  /\ map (split colon) (splitlines (text lowercase_response))
     = [[lit "1e4c9b93f3f0682250b6cf8331b7ee68fd8"; lit "3533661"]]
  /\ get_pwd_leaks_count lowercase_response password_tail [] = (inr (Int 0), []).
Proof. repeat split. Qed.

(** C8, amended.  On a response whose lines are TAIL:COUNT records, the
    lookup returns the COUNT of the first record whose TAIL is equal to the
    hash tail character for character (case matters), and the integer 0 when
    no record has that TAIL; for the canned body and the tail of "password"
    the count is 3533661. *)
Theorem leaks_count_of_exact_tail (hashes : Response) (hashed_pwd_tail : str) (log : list str) :
  let records := map (split colon) (splitlines (text hashes)) in
  (Forall (fun fields => exists tail count, fields = [tail; count] /\ tail <> hashed_pwd_tail)
     records ->
   get_pwd_leaks_count hashes hashed_pwd_tail log = (inr (Int 0), log))
  /\ (forall before count after,
        records = before ++ [hashed_pwd_tail; count] :: after ->
        Forall (fun fields => exists tail count, fields = [tail; count]
                                                 /\ tail <> hashed_pwd_tail) before ->
        exists v, get_pwd_leaks_count hashes hashed_pwd_tail log = (inr v, log)
                  /\ format v = count)
  /\ exists v, get_pwd_leaks_count canned_response password_tail log = (inr v, log)
               /\ format v = lit "3533661".
Proof.
  intros records. unfold get_pwd_leaks_count. fold records.
  destruct (scan_hashes_spec records hashed_pwd_tail log) as [Hnone Hsome].
  split; [exact Hnone|]. split.
  - intros before count after E Hb. exists (Str count). split; [|reflexivity].
    exact (Hsome before count after E Hb).
  - exists (Str (lit "3533661")). split; reflexivity.
Qed.

Lemma leaks_count_of_exact_tail_witness :
  get_pwd_leaks_count
    {| status_code := 200; text := lit "AAAAA...:0" |} password_tail [] = (inr (Int 0), []).
Proof.
  apply (proj1 (leaks_count_of_exact_tail
                  {| status_code := 200; text := lit "AAAAA...:0" |} password_tail [])).
  apply Forall_cons; [|apply Forall_nil].
  exists (lit "AAAAA..."), (lit "0"). split; [reflexivity|discriminate].
Defined.

(** C9.  For the empty password [check] returns the sentence "Empty
    password provided. No reason to check it !" as its normal result, and
    sends no request. *)
Theorem check_empty_password (server : remote) (hidden : bool) (log : list str) :
  check server {| password := []; has_to_be_hidden := hidden |} log
  = (inr (lit "Empty password provided. No reason to check it !"), log).
Proof. reflexivity. Qed.

(** *** Requests, failures and results of [check] *)

Lemma encode_utf8_char_none (c : char) :
  encode_utf8_char c = None <-> not_encodable c.
Proof.
  unfold encode_utf8_char, not_encodable. cbv zeta.
  destruct (Z.ltb_spec (Z.of_N c) 0x80); [split; [discriminate|lia]|].
  destruct (Z.ltb_spec (Z.of_N c) 0x800); [split; [discriminate|lia]|].
  destruct (Z.ltb_spec (Z.of_N c) 0x10000).
  - destruct (Z.leb_spec 0xD800 (Z.of_N c)); destruct (Z.leb_spec (Z.of_N c) 0xDFFF);
      cbn [andb]; split; first [discriminate | lia | reflexivity | auto].
  - destruct (Z.ltb_spec (Z.of_N c) 0x110000); split;
      first [discriminate | lia | reflexivity | auto].
Qed.

(** A string has a UTF-8 encoding unless one of its code points is a
    surrogate or lies beyond U+10FFFF. *)
Lemma encode_utf8_none (s : str) :
  encode_utf8 s = None <-> exists c, In c s /\ not_encodable c.
Proof.
  induction s as [|c s IH]; cbn [encode_utf8].
  - split; [discriminate|intros (c & [] & _)].
  - destruct (encode_utf8_char c) as [b|] eqn:Ec.
    + destruct (encode_utf8 s) as [bs|].
      * split; [discriminate|]. intros (d & [<-|Hd] & Hn).
        -- apply encode_utf8_char_none in Hn. congruence.
        -- assert (H : Some bs = None) by (apply IH; exists d; auto).
           discriminate H.
      * split; [|reflexivity]. intros _.
        destruct (proj1 IH eq_refl) as (d & Hd & Hn). exists d. split; [right; exact Hd|exact Hn].
    + split; [|reflexivity]. intros _. exists c. split; [left; reflexivity|].
      apply encode_utf8_char_none, Ec.
Qed.

Section CheckOutcomes.
Variable server : remote.

(** [check] on a password that has an encoding: the request, then what
    the answer decides. *)
Lemma check_unfold (self : PasswordChecker) (bytes : list Z) (log : list str) :
  password self <> [] ->
  encode_utf8 (password self) = Some bytes ->
  let sha1_pwd := upper (hexdigest (sha1 bytes)) in
  let url := api_range_url ++ firstn 5 sha1_pwd in
  check server self log
  = match server log url with
    | None => (inl ConnectionError, log ++ [url])
    | Some response =>
        if status_code response =? 200 then
          match scan_hashes (map (split colon) (splitlines (text response)))
                  (skipn 5 sha1_pwd) (log ++ [url]) with
          | (inl e, log') => (inl e, log')
          | (inr count, log') => (inr (check_result self count), log')
          end
        else
          (inr (check_result self
                  (Str (lit "Failed to get the information ("
                        ++ (lit "Error fetching : response status code = "
                            ++ str_of_int (status_code response)
                            ++ lit ", check the API and try again")
                        ++ lit ")"))),
           log ++ [url])
    end.
Proof.
  intros Hne He sha1_pwd url.
  unfold check. destruct (password self) as [|c0 pwd] eqn:Ep; [congruence|].
  unfold bind at 1, pwned_api_check. rewrite He. cbv zeta. fold sha1_pwd. fold url.
  unfold try_except_RuntimeError_else, request_api_data, bind, requests_get.
  destruct (server log url) as [response|]; [|reflexivity].
  destruct (status_code response =? 200); cbn [negb].
  - unfold ret at 1, get_pwd_leaks_count.
    destruct (scan_hashes _ _ _) as [[e|count] log']; [reflexivity|].
    unfold check_result. rewrite Ep. destruct (truthy count); reflexivity.
  - unfold raise, ret, check_result. rewrite Ep. reflexivity.
Qed.

Lemma scan_hashes_log (records : list (list str)) (tail : str) (log : list str) :
  snd (scan_hashes records tail log) = log.
Proof.
  induction records as [|fields records IH]; [reflexivity|].
  cbn [scan_hashes]. destruct fields as [|t [|c [|x rest]]]; try reflexivity.
  destruct (str_eqb t tail); [reflexivity|exact IH].
Qed.

(** Whatever the password and whatever the service answers, [check] sends
    at most one request, and none at all exactly when the password is empty
    or has no UTF-8 encoding. *)
Theorem check_sends_at_most_one_request (self : PasswordChecker) (log : list str) :
  exists sent,
    snd (check server self log) = log ++ sent
    /\ (List.length sent <= 1)%nat
    /\ (sent = [] <-> password self = [] \/ encode_utf8 (password self) = None).
Proof.
  destruct (password self) as [|c0 pwd] eqn:Ep.
  - exists []. unfold check. rewrite Ep. cbn. rewrite app_nil_r. repeat split; auto.
  - destruct (encode_utf8 (c0 :: pwd)) as [bytes|] eqn:He.
    + exists [api_range_url ++ firstn 5 (upper (hexdigest (sha1 bytes)))].
      split; [|split; [cbn; lia|]].
      * apply check_log; rewrite Ep; [discriminate|exact He].
      * split; [discriminate|]. intros [H|H]; discriminate H.
    + exists []. unfold check. rewrite Ep. unfold bind, pwned_api_check.
      rewrite He. cbn. rewrite app_nil_r. repeat split; auto.
Qed.

(** A password that holds a surrogate code point has no UTF-8 encoding:
    [check] raises [UnicodeEncodeError] and sends nothing. *)
Theorem check_unencodable_password (self : PasswordChecker) (log : list str) (c : char) :
  In c (password self) -> not_encodable c ->
  check server self log = (inl UnicodeEncodeError, log).
Proof.
  intros Hc Hn.
  assert (He : encode_utf8 (password self) = None)
    by (apply encode_utf8_none; exists c; auto).
  unfold check. destruct (password self) as [|c0 pwd] eqn:Ep; [destruct Hc|].
  unfold bind, pwned_api_check. rewrite He. reflexivity.
Qed.

(** When no response arrives, [check] raises the connection error after
    its single request: nothing is caught and nothing is retried. *)
Theorem check_connection_error (self : PasswordChecker) (bytes : list Z) (log : list str) :
  password self <> [] ->
  encode_utf8 (password self) = Some bytes ->
  let url := api_range_url ++ firstn 5 (upper (hexdigest (sha1 bytes))) in
  server log url = None ->
  check server self log = (inl ConnectionError, log ++ [url]).
Proof.
  intros Hne He url Hs.
  rewrite (check_unfold self bytes log Hne He). fold url. rewrite Hs. reflexivity.
Qed.

(** On a response with status 200 whose records before the first match
    all read TAIL:COUNT: when no record has the tail of the password, the
    answer is that the password has never been exposed; when a record has
    it, the answer quotes the COUNT of the first such record as the number
    of exposures, unless that COUNT is the empty text, in which case the
    answer is again that the password has never been exposed.  A COUNT of
    "0" is quoted as an exposure. *)
Theorem check_on_success
        (self : PasswordChecker) (bytes : list Z) (log : list str) (response : Response) :
  password self <> [] ->
  encode_utf8 (password self) = Some bytes ->
  let sha1_pwd := upper (hexdigest (sha1 bytes)) in
  let url := api_range_url ++ firstn 5 sha1_pwd in
  let tail := skipn 5 sha1_pwd in
  let records := map (split colon) (splitlines (text response)) in
  let password_string :=
    if negb (has_to_be_hidden self) then password self else lit "This password" in
  server log url = Some response ->
  status_code response = 200 ->
  (Forall (fun fields => exists t c, fields = [t; c] /\ t <> tail) records ->
   check server self log
   = (inr (password_string
           ++ lit " has never been exposed in data breaches : you can keep it :-)"),
      log ++ [url]))
  /\ (forall before count after,
        records = before ++ [tail; count] :: after ->
        Forall (fun fields => exists t c, fields = [t; c] /\ t <> tail) before ->
        check server self log
        = (inr (match count with
                | [] => password_string
                        ++ lit " has never been exposed in data breaches : you can keep it :-)"
                | _ :: _ => password_string
                            ++ lit " has already been exposed in data breaches ("
                            ++ count
                            ++ lit " times) : you should probably change it !!"
                end),
           log ++ [url])).
Proof.
  intros Hne He sha1_pwd url tail records password_string Hs Hok.
  rewrite (check_unfold self bytes log Hne He). fold sha1_pwd url tail. rewrite Hs, Hok.
  cbn [Z.eqb Pos.eqb]. fold records.
  destruct (scan_hashes_spec records tail (log ++ [url])) as [Hnone Hsome].
  split.
  - intros Hall. rewrite (Hnone Hall). reflexivity.
  - intros before count after E Hb. rewrite (Hsome before count after E Hb).
    unfold check_result. fold password_string. destruct count; reflexivity.
Qed.

(** When a line of a status-200 response does not split into exactly two
    fields at its colons (a blank line, a line without colon, a line with
    two colons) and no earlier record has the tail of the password, [check]
    raises [ValueError] after its request. *)
Theorem check_malformed_record
        (self : PasswordChecker) (bytes : list Z) (log : list str) (response : Response)
        (before after : list (list str)) (fields : list str) :
  password self <> [] ->
  encode_utf8 (password self) = Some bytes ->
  let sha1_pwd := upper (hexdigest (sha1 bytes)) in
  let url := api_range_url ++ firstn 5 sha1_pwd in
  let tail := skipn 5 sha1_pwd in
  server log url = Some response ->
  status_code response = 200 ->
  map (split colon) (splitlines (text response)) = before ++ fields :: after ->
  Forall (fun fields => exists t c, fields = [t; c] /\ t <> tail) before ->
  List.length fields <> 2%nat ->
  check server self log = (inl ValueError, log ++ [url]).
Proof.
  intros Hne He sha1_pwd url tail Hs Hok Hrec Hb Hbad.
  rewrite (check_unfold self bytes log Hne He). fold sha1_pwd url tail. rewrite Hs, Hok, Hrec.
  cbn [Z.eqb Pos.eqb].
  assert (H : scan_hashes (before ++ fields :: after) tail (log ++ [url])
              = (inl ValueError, log ++ [url])).
  { clear Hrec. induction Hb as [|f before (t & c & -> & Hne') _ IH].
    - cbn [app scan_hashes].
      destruct fields as [|t [|c [|x rest]]]; try reflexivity. cbn in Hbad. congruence.
    - cbn [app scan_hashes]. destruct (str_eqb t tail) eqn:E.
      + apply str_eqb_eq in E. contradiction.
      + exact IH. }
  rewrite H. reflexivity.
Qed.

End CheckOutcomes.

Lemma check_unencodable_password_witness :
  check (always canned_response) {| password := [55296%N]; has_to_be_hidden := true |} []
  = (inl UnicodeEncodeError, []).
Proof.
  apply (check_unencodable_password (always canned_response)
           {| password := [55296%N]; has_to_be_hidden := true |} [] 55296%N).
  - left. reflexivity.
  - left. cbn. lia.
Defined.

Lemma check_connection_error_witness :
  check (fun _ _ => None) (checker_of "password" true) []
  = (inl ConnectionError, [lit "https://api.pwnedpasswords.com/range/5BAA6"]).
Proof.
  refine (check_connection_error (fun _ _ => None) (checker_of "password" true)
            [112; 97; 115; 115; 119; 111; 114; 100] [] _ _ _).
  - discriminate.
  - reflexivity.
  - reflexivity.
Defined.

Lemma check_on_success_witness :
  check (always canned_response) (checker_of "password" false) []
  = (inr (lit "password has already been exposed in data breaches (3533661 times) : you should probably change it !!"),
     [lit "https://api.pwnedpasswords.com/range/5BAA6"]).
Proof.
  refine (proj2 (check_on_success (always canned_response) (checker_of "password" false)
                   [112; 97; 115; 115; 119; 111; 114; 100] [] canned_response _ _ _ _)
            [] (lit "3533661") [[lit "AAAAA..."; lit "0"]] _ _).
  - discriminate.
  - reflexivity.
  - reflexivity.
  - reflexivity.
  - reflexivity.
  - constructor.
Defined.

Lemma check_malformed_record_witness :
  check (always {| status_code := 200; text := lit "no colon here" |})
    (checker_of "password" true) []
  = (inl ValueError, [lit "https://api.pwnedpasswords.com/range/5BAA6"]).
Proof.
  refine (check_malformed_record
            (always {| status_code := 200; text := lit "no colon here" |})
            (checker_of "password" true)
            [112; 97; 115; 115; 119; 111; 114; 100] []
            {| status_code := 200; text := lit "no colon here" |}
            [] [] [lit "no colon here"] _ _ _ _ _ _ _).
  - discriminate.
  - reflexivity.
  - reflexivity.
  - reflexivity.
  - reflexivity.
  - constructor.
  - discriminate.
Defined.

(** *** [__str__] *)

Lemma re_sub_dot_star_shape (s t : str) :
  map (N.eqb 10) s = map (N.eqb 10) t -> re_sub_dot_star s = re_sub_dot_star t.
Proof.
  unfold re_sub_dot_star. revert t.
  induction s as [|c s IH]; intros [|d t]; cbn [map]; try discriminate; [reflexivity|].
  intros H.
  assert (Hc : N.eqb 10 c = N.eqb 10 d)
    by exact (f_equal (fun l => match l with x :: _ => x | [] => false end) H).
  assert (Hs : map (N.eqb 10) s = map (N.eqb 10) t) by exact (f_equal (@tl bool) H).
  f_equal; [|exact (IH t Hs)].
  rewrite (N.eqb_sym c 10), (N.eqb_sym d 10), Hc.
  destruct (N.eqb_spec 10 d) as [<-|Hd]; [|reflexivity].
  destruct (N.eqb_spec 10 c) as [<-|]; [reflexivity|discriminate].
Qed.

Lemma re_sub_dot_star_pointwise (s : str) :
  Forall2 (fun c shown_c => (c = 10%N /\ shown_c = 10%N) \/ (c <> 10%N /\ shown_c = 42%N))
          s (re_sub_dot_star s).
Proof.
  unfold re_sub_dot_star. induction s as [|c s IH]; cbn [map]; constructor; [|exact IH].
  destruct (N.eqb_spec c 10); auto.
Qed.

(** When the password has to be hidden, [__str__] shows, position by
    position, a line feed where the password has a line feed and a star
    where it has any other character: the text has the length of the
    password, is made of stars and line feeds, and depends on nothing but
    the positions of the line feeds.  Otherwise it shows the password as it
    is. *)
Theorem str_hides_password (self : PasswordChecker) :
  (has_to_be_hidden self = true ->
   exists shown,
     PasswordChecker_str self
     = lit "password = " ++ shown ++ [10%N] ++ lit "has_to_be_hidden = True"
     /\ Forall2 (fun c shown_c =>
                   (c = 10%N /\ shown_c = 10%N) \/ (c <> 10%N /\ shown_c = 42%N))
                (password self) shown
     /\ List.length shown = List.length (password self)
     /\ Forall (fun c => c = 42%N \/ c = 10%N) shown
     /\ forall self',
          has_to_be_hidden self' = true ->
          map (N.eqb 10) (password self) = map (N.eqb 10) (password self') ->
          PasswordChecker_str self = PasswordChecker_str self')
  /\ (has_to_be_hidden self = false ->
      PasswordChecker_str self
      = lit "password = " ++ password self ++ [10%N] ++ lit "has_to_be_hidden = False").
Proof.
  unfold PasswordChecker_str. split; intros Hh; rewrite Hh; cbv zeta; [|reflexivity].
  exists (re_sub_dot_star (password self)). split; [reflexivity|].
  split; [apply re_sub_dot_star_pointwise|]. split; [|split].
  - unfold re_sub_dot_star. apply length_map.
  - unfold re_sub_dot_star. apply Forall_map, Forall_forall. intros c _.
    destruct (N.eqb_spec c 10); auto.
  - intros self' Hh' Hshape. rewrite Hh'.
    rewrite (re_sub_dot_star_shape _ _ Hshape). reflexivity.
Qed.

Lemma str_hides_password_witness :
  PasswordChecker_str
    {| password := lit "pass" ++ [10%N] ++ lit "w0rd"; has_to_be_hidden := true |}
  = lit "password = ****" ++ [10%N] ++ lit "****" ++ [10%N] ++ lit "has_to_be_hidden = True".
Proof.
  destruct (proj1 (str_hides_password
                     {| password := lit "pass" ++ [10%N] ++ lit "w0rd";
                        has_to_be_hidden := true |}) eq_refl)
    as (shown & Hstr & Hshown & _).
  rewrite Hstr. clear Hstr.
  change (password _) with ([112; 97; 115; 115; 10; 119; 48; 114; 100]%N) in Hshown.
  repeat match goal with
         | H : Forall2 _ (_ :: _) _ |- _ => inversion H; subst; clear H
         | H : Forall2 _ [] _ |- _ => inversion H; subst; clear H
         | H : _ \/ _ |- _ => destruct H as [[? ?]|[? ?]]; try discriminate; try congruence
         end.
  subst. reflexivity.
Defined.

End CheckerProofs.

(** ** Properties of the attributes and of the caller *)

Module RulesObjectProofs.

Import Generator RulesObject.




Lemma reachable_step (permitted : call -> Prop) (self self' : PasswordRules_attributes)
      (c : call) :
  reachable permitted self -> permitted c -> snd (perform self c) = self' ->
  reachable permitted self'.
Proof. intros Hr Hc <-. apply reachable_perform; assumption. Qed.



(** *** [PasswordGeneratorWidget.__generate] *)

Lemma single_characters_of_text (text : str) :
  forallb isinstance_str (map (fun c => PyStr [c]) text) = true
  /\ single_characters (map str_of (map (fun c => PyStr [c]) text)) = Some text.
Proof.
  induction text as [|c text [IH1 IH2]]; [split; reflexivity|].
  cbn [map forallb isinstance_str andb str_of single_characters].
  rewrite IH1, IH2. split; reflexivity.
Qed.

(** With spin boxes that hold positive values, no setter raises and the
    instance built is the one of the form. *)
Lemma retrieve_rules_of_form (f : form) :
  0 < spin_box_chars_min f -> 0 < spin_box_chars_max f ->
  exists self,
    retrieve_rules f = inr self
    /\ reachable with_sized_customized_strings self
    /\ rules_of self = Some (rules_of_form f).
Proof.
  intros Hmin Hmax. unfold retrieve_rules, set_min_number_of_chars, set_max_number_of_chars,
    set_allowed_special_characters, set_customized_strings.
  cbn [greater_than_zero isinstance_int int_of py_len].
  destruct (Z.gtb_spec (spin_box_chars_min f) 0); [|lia].
  destruct (Z.gtb_spec (spin_box_chars_max f) 0); [|lia].
  cbn [andb]. destruct (single_characters_of_text (line_edit_special_chars f)) as [H1 H2].
  rewrite H1. eexists. split; [reflexivity|]. split.
  - eapply (reachable_step _ _ _
              (call_set_customized_strings (PyStr (line_edit_first_chars f))
                 (PyStr (line_edit_last_chars f))));
      [|split; eexists; reflexivity|reflexivity].
    eapply (reachable_step _ _ _
              (call_set_presence_rules (PyBool (check_box_lower_case_letter f))
                 (PyBool (check_box_upper_case_letter f)) (PyBool (check_box_number f))
                 (PyBool (check_box_special_char f)))); [|exact I|reflexivity].
    eapply (reachable_step _ _ _
              (assign_allowed_special_characters
                 (PyList (map (fun c => PyStr [c]) (line_edit_special_chars f)))));
      [|exact I|].
    2:{ cbn [perform]. unfold set_allowed_special_characters. rewrite H1. reflexivity. }
    eapply (reachable_step _ _ _ (assign_max_number_of_chars (PyInt (spin_box_chars_max f))));
      [|exact I|].
    2:{ cbn [perform]. unfold set_max_number_of_chars. cbn [greater_than_zero isinstance_int].
        destruct (Z.gtb_spec (spin_box_chars_max f) 0); [|lia]. reflexivity. }
    eapply (reachable_step _ _ _ (assign_min_number_of_chars (PyInt (spin_box_chars_min f))));
      [|exact I|].
    2:{ cbn [perform]. unfold set_min_number_of_chars. cbn [greater_than_zero isinstance_int].
        destruct (Z.gtb_spec (spin_box_chars_min f) 0); [|lia]. reflexivity. }
    apply reachable_init.
  - unfold rules_of. cbn. rewrite H2. reflexivity.
Qed.

(** With spin boxes that hold positive values (their range is 1 to 100),
    [__generate] raises nothing: when the rules of the form are not
    consistent it shows "The following error occurred :" followed by the
    reason of the validator, word for word; when they are consistent it
    shows the generated password between quotes, unless the sending by
    email is checked: the password is then generated but the call of
    [self._send_password_by_email] raises [AttributeError], the method being
    defined under the mangled name [__send_password_by_email]. *)
Theorem generate_clicked_outcome (U : unicode) (f : form) (r : randomness) :
  0 < spin_box_chars_min f -> 0 < spin_box_chars_max f ->
  (forall reason,
     check_rules_consistency U (rules_of_form f) = (false, reason) ->
     generate_clicked U f r
     = Some (set_plain_text (lit "The following error occurred :" ++ [10%N] ++ reason)))
  /\ (check_rules_consistency U (rules_of_form f) = (true, lit "") ->
      exists generated_password,
        run (generate U (rules_of_form f)) r = inr generated_password
        /\ generate_clicked U f r
           = Some (if group_box_send_mail f
                   then raised_AttributeError (lit "_send_password_by_email")
                   else set_plain_text
                          (lit "The generated password is :" ++ [10%N] ++ lit "'"
                           ++ generated_password ++ lit "'"))).
Proof.
  intros Hmin Hmax.
  destruct (retrieve_rules_of_form f Hmin Hmax) as (self & Hret & _ & Hrules).
  unfold generate_clicked. rewrite Hret, Hrules. split.
  - intros reason Hc. unfold run, generate. rewrite Hc. reflexivity.
  - intros Hc.
    destruct (GeneratorProofs.generate_shape U (rules_of_form f) (lit "") r Hc)
      as (added & fill & r' & Hrun & _).
    unfold run. rewrite Hrun. eexists. split; [reflexivity|].
    destruct (group_box_send_mail f); reflexivity.
Qed.

Lemma generate_clicked_outcome_witness :
  exists generated_password,
    run (generate ascii_table (rules_of_form mixed_form)) [5; 7; 3; 1; 2; 70; 33]%nat
    = inr generated_password
    /\ generate_clicked ascii_table mixed_form [5; 7; 3; 1; 2; 70; 33]%nat
       = Some (set_plain_text
                 (lit "The generated password is :" ++ [10%N] ++ lit "'"
                  ++ generated_password ++ lit "'")).
Proof.
  apply (proj2 (generate_clicked_outcome ascii_table mixed_form
                  [5; 7; 3; 1; 2; 70; 33]%nat ltac:(reflexivity) ltac:(reflexivity))).
  reflexivity.
Defined.

End RulesObjectProofs.
